(** * Webpage Audio Summarizer

    The browser extension (background script, popups, options page) is
    embedded from its JavaScript sources; the summarization server it
    talks to is modelled from its specification.

    The extension is JavaScript.  Its strings are sequences of UTF-16 code
    units, modelled as [list Z]; byte buffers ([Uint8Array]) are [list Z]
    with every element in [0, 256); JS objects used as records of named
    fields are [gmap string _].  Handlers are written in a small
    state/exception/output monad: the state is the mutable page state, an
    exception carries [error.message], and the output is the sequence of
    externally visible effects (network calls, notifications, ...). *)

From Stdlib Require Import ZArith Lia DecimalString.
From stdpp Require Import base numbers option list strings gmap.

Local Open Scope Z_scope.

(** ** JavaScript values and strings *)

Abbreviation jsstring := (list Z) (only parsing).

(** A string literal of the source whose characters are all ASCII. *)
Definition js (s : string) : jsstring :=
  (λ c, Z.of_nat (Ascii.nat_of_ascii c)) <$> String.list_ascii_of_string s.

(** The values a field of a parsed JSON body can hold; numbers are
    restricted to integers, [VObj] is a plain object (arrays are not
    modelled). *)
Inductive jsval :=
| VUndefined
| VNull
| VBool (b : bool)
| VNum (n : Z)
| VStr (s : jsstring)
| VObj.

(** ToBoolean *)
Definition truthy (v : jsval) : bool :=
  match v with
  | VUndefined | VNull => false
  | VBool b => b
  | VNum n => negb (n =? 0)
  | VStr s => negb (bool_decide (s = []))
  | VObj => true
  end.

Definition decimal (n : Z) : jsstring := js (NilZero.string_of_int (Z.to_int n)).

(** ToString *)
Definition to_js_string (v : jsval) : jsstring :=
  match v with
  | VUndefined => js "undefined"
  | VNull => js "null"
  | VBool true => js "true"
  | VBool false => js "false"
  | VNum n => decimal n
  | VStr s => s
  | VObj => js "[object Object]"
  end.

(** [String.prototype.startsWith] *)
Fixpoint startsWith (s prefix : jsstring) {struct prefix} : bool :=
  match prefix, s with
  | [], _ => true
  | p :: prefix', c :: s' => (c =? p) && startsWith s' prefix'
  | _ :: _, [] => false
  end.

(** ** Effects

    The effects a handler has on the world outside the page.  Console
    output, the labels of the selector's options and the timers that
    clear a status line are left out. *)

Inductive AudioBuffer := Decoded (data : list Z).

Inductive event :=
| Fetch (url : jsstring) (body : gmap string jsval)
| Notification (title message : jsstring)
| BadgeText (text : jsstring)
| BadgeBackgroundColor (color : jsstring)
| TabsQuery
| DecodeAudioData (bytes : list Z)
| SourceStart (buffer : AudioBuffer)
| SourceStop
| ContextClose
| ContextResume
| OpenPopup.

Inductive outcome (A : Type) :=
| Return (a : A)
| Throw (message : jsstring).
Arguments Return {A} a.
Arguments Throw {A} message.

Definition M (S A : Type) : Type := S → outcome A * S * list event.

Definition ret {S A} (a : A) : M S A := λ s, (Return a, s, []).

Definition bind {S A B} (m : M S A) (f : A → M S B) : M S B :=
  λ s, match m s with
       | (Return a, s1, t1) =>
           let '(r, s2, t2) := f a s1 in (r, s2, t1 ++ t2)
       | (Throw e, s1, t1) => (Throw e, s1, t1)
       end.

Definition throw {S A} (message : jsstring) : M S A := λ s, (Throw message, s, []).

Definition emit {S} (e : event) : M S () := λ s, (Return (), s, [e]).

Definition get {S} : M S S := λ s, (Return s, s, []).

Definition modify {S} (f : S → S) : M S () := λ s, (Return (), f s, []).

(** [try { body } catch (error) { handler error }] *)
Definition try_catch {S A} (body : M S A) (handler : jsstring → M S A) : M S A :=
  λ s, match body s with
       | (Return a, s1, t1) => (Return a, s1, t1)
       | (Throw e, s1, t1) =>
           let '(r, s2, t2) := handler e s1 in (r, s2, t1 ++ t2)
       end.

(** [try { body } finally { cleanup }] *)
Definition try_finally {S A} (body : M S A) (cleanup : M S ()) : M S A :=
  λ s, let '(r, s1, t1) := body s in
       match cleanup s1 with
       | (Return _, s2, t2) => (r, s2, t1 ++ t2)
       | (Throw e, s2, t2) => (Throw e, s2, t1 ++ t2)
       end.

(** Settle a promise or a call whose result is given by the environment. *)
Definition settle {S A} (r : outcome A) : M S A := λ s, (r, s, []).

Global Instance M_ret {S} : MRet (M S) := λ A a, ret a.
Global Instance M_bind {S} : MBind (M S) := λ A B f m, bind m f.

(** ** Base64 *)

Module Base64.

(** Position of a code unit in the base64 alphabet (RFC 4648, table 1). *)
Definition b64_value (c : Z) : option Z :=
  if (65 <=? c) && (c <=? 90) then Some (c - 65)
  else if (97 <=? c) && (c <=? 122) then Some (c - 71)
  else if (48 <=? c) && (c <=? 57) then Some (c + 4)
  else if c =? 43 then Some 62
  else if c =? 47 then Some 63
  else None.

Definition b64_char (v : Z) : Z :=
  if v <? 26 then v + 65
  else if v <? 52 then v + 71
  else if v <? 62 then v - 4
  else if v =? 62 then 43
  else 47.

Definition pad : Z := 61.

(** Modelled from the spec: the server side that produces [audio_base64]
    is not part of the extension sources; the transport encoding is
    standard base64 with padding (RFC 4648, section 4) of the audio
    bytes. *)
Fixpoint b64encode (bytes : list Z) : jsstring :=
  match bytes with
  | [] => []
  | [a] =>
      [b64_char (Z.shiftr a 2);
       b64_char (Z.shiftl (Z.land a 3) 4);
       pad; pad]
  | [a; b] =>
      [b64_char (Z.shiftr a 2);
       b64_char (Z.lor (Z.shiftl (Z.land a 3) 4) (Z.shiftr b 4));
       b64_char (Z.shiftl (Z.land b 15) 2);
       pad]
  | a :: b :: c :: rest =>
      [b64_char (Z.shiftr a 2);
       b64_char (Z.lor (Z.shiftl (Z.land a 3) 4) (Z.shiftr b 4));
       b64_char (Z.lor (Z.shiftl (Z.land b 15) 2) (Z.shiftr c 6));
       b64_char (Z.land c 63)] ++ b64encode rest
  end.

(** [atob] is the browser's forgiving-base64 decode (WHATWG Infra).
    Step 1: ASCII whitespace is removed. *)
Definition is_ascii_whitespace (c : Z) : bool :=
  (c =? 9) || (c =? 10) || (c =? 12) || (c =? 13) || (c =? 32).

Definition remove_whitespace (data : jsstring) : jsstring :=
  List.filter (λ c, negb (is_ascii_whitespace c)) data.

(** Step 2: if the length is a multiple of four, one or two trailing
    [=] are removed. *)
Definition ends_with_pad (data : jsstring) : bool :=
  match last data with
  | Some c => c =? pad
  | None => false
  end.

Definition strip_padding (data : jsstring) : jsstring :=
  if Z.of_nat (length data) mod 4 =? 0 then
    if ends_with_pad data then
      let data1 := removelast data in
      if ends_with_pad data1 then removelast data1 else data1
    else data
  else data.

(** Steps 5 to 10: six bits per code unit are appended to a buffer; every
    24 bits give three bytes; 12 left-over bits give one byte and 18 give
    two, the surplus low bits being discarded. *)
Fixpoint atob_loop (buffer nbits : Z) (position : list Z) : jsstring :=
  match position with
  | [] =>
      if nbits =? 12 then [Z.shiftr buffer 4]
      else if nbits =? 18 then
        let buffer := Z.shiftr buffer 2 in
        [Z.shiftr buffer 8; Z.land buffer 255]
      else []
  | v :: position =>
      let buffer := Z.lor (Z.shiftl buffer 6) v in
      let nbits := nbits + 6 in
      if nbits =? 24 then
        [Z.land (Z.shiftr buffer 16) 255;
         Z.land (Z.shiftr buffer 8) 255;
         Z.land buffer 255] ++ atob_loop 0 0 position
      else atob_loop buffer nbits position
  end.

(** [None] is the [InvalidCharacterError] exception. *)
Definition atob (base64 : jsstring) : option jsstring :=
  let data := strip_padding (remove_whitespace base64) in
  if Z.of_nat (length data) mod 4 =? 1 then None
  else
    match mapM b64_value data with
    | None => None
    | Some sextets => Some (atob_loop 0 0 sextets)
    end.

(** [binaryString.charCodeAt(i)]; [None] is NaN. *)
Definition charCodeAt (s : jsstring) (i : nat) : option Z := s !! i.

(** Storing a number into a [Uint8Array] element (ToUint8). *)
Definition to_uint8 (v : option Z) : Z :=
  match v with
  | Some n => n mod 256
  | None => 0
  end.

(** [new Uint8Array(len)] followed by
    [for (let i = 0; i < len; i++) bytes[i] = binaryString.charCodeAt(i)]. *)
Definition fill_bytes (binaryString : jsstring) : list Z :=
  let len := length binaryString in
  foldl (λ bytes i, <[i := to_uint8 (charCodeAt binaryString i)]> bytes)
        (replicate len 0) (seq 0 len).

(** A byte, as an element of a [Uint8Array] or of the audio stream. *)
Definition is_byte (b : Z) : Prop := 0 ≤ b < 256.

(** The six-bit groups of a byte sequence, and the padding that follows
    their characters in [b64encode]. *)
Fixpoint sextets (bytes : list Z) : list Z :=
  match bytes with
  | [] => []
  | [a] => [Z.shiftr a 2; Z.shiftl (Z.land a 3) 4]
  | [a; b] =>
      [Z.shiftr a 2;
       Z.lor (Z.shiftl (Z.land a 3) 4) (Z.shiftr b 4);
       Z.shiftl (Z.land b 15) 2]
  | a :: b :: c :: rest =>
      [Z.shiftr a 2;
       Z.lor (Z.shiftl (Z.land a 3) 4) (Z.shiftr b 4);
       Z.lor (Z.shiftl (Z.land b 15) 2) (Z.shiftr c 6);
       Z.land c 63] ++ sextets rest
  end.

Fixpoint padding (bytes : list Z) : jsstring :=
  match bytes with
  | [] => []
  | [a] => [pad; pad]
  | [a; b] => [pad]
  | a :: b :: c :: rest => padding rest
  end.

(** The strings the forgiving-base64 decoder accepts: once whitespace and
    the optional padding are removed, only alphabet characters remain and
    their number is not one more than a multiple of four. *)
Definition in_alphabet (c : Z) : bool :=
  ((65 <=? c) && (c <=? 90)) || ((97 <=? c) && (c <=? 122))
  || ((48 <=? c) && (c <=? 57)) || (c =? 43) || (c =? 47).

Definition valid_base64 (base64 : jsstring) : bool :=
  let data := strip_padding (remove_whitespace base64) in
  forallb in_alphabet data && negb (Z.of_nat (length data) mod 4 =? 1).

End Base64.

(** ** What the browser and the server answer

    One handler run consults the outside world at fixed points; the
    answers are the handler's inputs. *)

Record tab := { tab_id : Z; tab_url : option jsstring }.

(** The result of [response.json()]. *)
Inductive json_body :=
| NotJson (message : jsstring)
| JsonNull
| JsonObject (fields : gmap string jsval).

Record response := {
  ok : bool;
  status : Z;
  statusText : jsstring;
  body : json_body
}.

Inductive context_state := Running | Suspended.

Record environment := {
  tabs_query : outcome (list tab);
  fetch_result : outcome response;
  decodeAudioData_result : list Z → outcome AudioBuffer;
  existing_context_state : context_state;  (* [audioContext.state] *)
  fresh_context_state : context_state;     (* the same, just after [new] *)
  start_result : outcome ();
  stop_result : outcome ();
  invalid_character_error : jsstring;
  type_error : jsstring
}.

Definition SERVER_URL : jsstring := js "http://127.0.0.1:5000/summarize".

(** [await response.json()] *)
Definition response_json {S} (r : response) : M S json_body :=
  match body r with
  | NotJson message => throw message
  | b => mret b
  end.

(** [data.field]: reading a property of [null] is a TypeError, a missing
    property is [undefined]. *)
Definition get_field {S} (env : environment) (data : json_body) (field : string)
  : M S jsval :=
  match data with
  | JsonObject fields => mret (default VUndefined (fields !! field))
  | _ => throw (type_error env)
  end.

(** [!url], for the optional string [tab.url]. *)
Definition url_missing (url : option jsstring) : bool :=
  match url with
  | None | Some [] => true
  | Some _ => false
  end.

Definition url_text (url : option jsstring) : jsstring := default [] url.

(** [!url.startsWith('http:') && !url.startsWith('https:')] *)
Definition not_http (url : jsstring) : bool :=
  negb (startsWith url (js "http:")) && negb (startsWith url (js "https:")).

(** ** The toolbar-button listener that only opens the popup *)

Module BackgroundOpener.

Definition onClicked (t : tab) : M () () := emit OpenPopup.

End BackgroundOpener.

(** ** The background script that summarizes and plays the current tab *)

Module Background.

(** ['播放錯誤'] *)
Definition title_play_error : jsstring :=
  [25773; 25918; 37679; 35492].

(** ['從伺服器收到的音訊數據格式錯誤。'] *)
Definition message_bad_audio : jsstring :=
  [24478; 20282; 26381; 22120; 25910; 21040; 30340; 38899; 35338; 25976;
   25818; 26684; 24335; 37679; 35492; 12290].

(** ['無法播放音訊： '] *)
Definition prefix_cannot_play : jsstring :=
  [28961; 27861; 25773; 25918; 38899; 35338; 65306; 32].

(** ['無法摘要'] *)
Definition title_cannot_summarize : jsstring :=
  [28961; 27861; 25688; 35201].

(** ['此擴充功能無法摘要目前頁面 (URL 無效)。'] *)
Definition message_invalid_url : jsstring :=
  [27492; 25844; 20805; 21151; 33021; 28961; 27861; 25688; 35201; 30446;
   21069; 38913; 38754; 32; 40; 85; 82; 76; 32; 28961; 25928; 41; 12290].

(** ['伺服器錯誤 '] *)
Definition prefix_server_error : jsstring :=
  [20282; 26381; 22120; 37679; 35492; 32].

(** ['摘要結果'] *)
Definition title_summary_result : jsstring :=
  [25688; 35201; 32080; 26524].

(** ['伺服器已處理，但未收到有效的音訊摘要。'] *)
Definition message_no_audio : jsstring :=
  [20282; 26381; 22120; 24050; 34389; 29702; 65292; 20294; 26410; 25910;
   21040; 26377; 25928; 30340; 38899; 35338; 25688; 35201; 12290].

(** ['處理錯誤'] *)
Definition title_processing_error : jsstring :=
  [34389; 29702; 37679; 35492].

(** ['發生錯誤： '] *)
Definition prefix_error_occurred : jsstring :=
  [30332; 29983; 37679; 35492; 65306; 32].

(** The script's globals. *)
Record state := {
  audioContext : bool;                      (* [audioContext] is not null *)
  currentAudioSource : option AudioBuffer
}.

Definition set_audioContext (c : bool) (s : state) : state :=
  {| audioContext := c; currentAudioSource := currentAudioSource s |}.

Definition set_currentAudioSource (a : option AudioBuffer) (s : state) : state :=
  {| audioContext := audioContext s; currentAudioSource := a |}.

Definition base64ToArrayBuffer {S} (env : environment) (base64 : jsstring)
  : M S (list Z) :=
  try_catch
    (match Base64.atob base64 with
     | Some binaryString => mret (Base64.fill_bytes binaryString)
     | None => throw (invalid_character_error env)
     end)
    (λ error,
       emit (Notification title_play_error message_bad_audio);;
       throw (js "Invalid Base64 audio data received.")).

Definition playAudio (env : environment) (audioBuffer : list Z) : M state () :=
  s ← get;
  (if negb (audioContext s)
      || (if existing_context_state env is Suspended then true else false)
   then
     (if audioContext s then emit ContextClose else mret ());;
     modify (set_audioContext true);;
     if fresh_context_state env is Suspended
     then emit ContextResume else mret ()
   else mret ());;
  s ← get;
  (if currentAudioSource s is Some _ then
     try_catch (emit SourceStop;; settle (stop_result env)) (λ e, mret ());;
     modify (set_currentAudioSource None)
   else mret ());;
  try_catch
    (emit (DecodeAudioData audioBuffer);;
     decodedData ← settle (decodeAudioData_result env audioBuffer);
     settle (start_result env);;
     emit (SourceStart decodedData);;
     modify (set_currentAudioSource (Some decodedData)))
    (λ error,
       emit (Notification title_play_error (prefix_cannot_play ++ error))).

(** [data.audio_base64.length > 0], evaluated only for a truthy value. *)
Definition length_positive (v : jsval) : bool :=
  match v with
  | VStr s => 0 <? Z.of_nat (length s)
  | _ => false
  end.

Definition request_body (url : jsstring) : gmap string jsval :=
  {[ "url" := VStr url; "summarizer_choice" := VStr (js "gemini") ]}.

Definition onClicked (env : environment) (t : tab) : M state () :=
  if url_missing (tab_url t) || not_http (url_text (tab_url t)) then
    emit (Notification title_cannot_summarize message_invalid_url)
  else
    emit (BadgeText (js "..."));;
    emit (BadgeBackgroundColor (js "#FFA500"));;
    try_finally
      (try_catch
         (emit (Fetch SERVER_URL (request_body (url_text (tab_url t))));;
          response ← settle (fetch_result env);
          (if negb (ok response) then
             let errorMsg := prefix_server_error ++ decimal (status response) in
             errorMsg ← try_catch
               (errorData ← response_json response;
                error ← get_field env errorData "error";
                mret (if truthy error then to_js_string error else errorMsg))
               (λ e, mret (errorMsg ++ js ": " ++ statusText response));
             throw errorMsg
           else mret ());;
          data ← response_json response;
          error ← get_field env data "error";
          (if truthy error then throw (to_js_string error) else mret ());;
          audio_base64 ← get_field env data "audio_base64";
          if truthy audio_base64 && length_positive audio_base64 then
            audioBuffer ← base64ToArrayBuffer env (to_js_string audio_base64);
            playAudio env audioBuffer
          else
            emit (Notification title_summary_result message_no_audio))
         (λ error,
            emit (Notification title_processing_error
                    (prefix_error_occurred ++ error))))
      (emit (BadgeText [])).

End Background.

(** ** The popup page

    The DOM nodes the popup scripts read and write, and the script global
    [audioBuffer]. *)

Record page := {
  statusDiv : jsstring;          (* statusDiv.textContent *)
  summaryContainer : jsstring;   (* summaryContainer.textContent *)
  summaryShown : bool;           (* summaryContainer.style.display is 'block' *)
  controlsShown : bool;          (* controlsDiv.style.display is 'block' *)
  replayDisabled : bool;         (* replayButton.disabled *)
  summarizeDisabled : bool;      (* summarizeButton.disabled *)
  audioBuffer : option AudioBuffer
}.

Definition set_statusDiv (v : jsstring) (p : page) : page :=
  {| statusDiv := v; summaryContainer := summaryContainer p;
     summaryShown := summaryShown p; controlsShown := controlsShown p;
     replayDisabled := replayDisabled p;
     summarizeDisabled := summarizeDisabled p; audioBuffer := audioBuffer p |}.

Definition set_summaryContainer (v : jsstring) (p : page) : page :=
  {| statusDiv := statusDiv p; summaryContainer := v;
     summaryShown := summaryShown p; controlsShown := controlsShown p;
     replayDisabled := replayDisabled p;
     summarizeDisabled := summarizeDisabled p; audioBuffer := audioBuffer p |}.

Definition set_display (v : bool) (p : page) : page :=
  {| statusDiv := statusDiv p; summaryContainer := summaryContainer p;
     summaryShown := v; controlsShown := v;
     replayDisabled := replayDisabled p;
     summarizeDisabled := summarizeDisabled p; audioBuffer := audioBuffer p |}.

Definition set_replayDisabled (v : bool) (p : page) : page :=
  {| statusDiv := statusDiv p; summaryContainer := summaryContainer p;
     summaryShown := summaryShown p; controlsShown := controlsShown p;
     replayDisabled := v;
     summarizeDisabled := summarizeDisabled p; audioBuffer := audioBuffer p |}.

Definition set_summarizeDisabled (v : bool) (p : page) : page :=
  {| statusDiv := statusDiv p; summaryContainer := summaryContainer p;
     summaryShown := summaryShown p; controlsShown := controlsShown p;
     replayDisabled := replayDisabled p;
     summarizeDisabled := v; audioBuffer := audioBuffer p |}.

Definition set_audioBuffer (v : option AudioBuffer) (p : page) : page :=
  {| statusDiv := statusDiv p; summaryContainer := summaryContainer p;
     summaryShown := summaryShown p; controlsShown := controlsShown p;
     replayDisabled := replayDisabled p;
     summarizeDisabled := summarizeDisabled p; audioBuffer := v |}.

Definition updateStatus (message : jsstring) : M page () :=
  modify (set_statusDiv message).

Definition decodeAudioData (env : environment) (base64String : jsstring)
  : M page AudioBuffer :=
  try_catch
    (binaryString ← match Base64.atob base64String with
                    | Some b => mret b
                    | None => throw (invalid_character_error env)
                    end;
     let bytes := Base64.fill_bytes binaryString in
     emit (DecodeAudioData bytes);;
     settle (decodeAudioData_result env bytes))
    (λ error,
       updateStatus (js "Error: Could not decode audio.");;
       throw error).

(** ** The popup that summarizes the current tab as soon as it opens *)

Module PopupOnOpen.

Definition playAudio (env : environment) (buffer : option AudioBuffer)
  : M page () :=
  match buffer with
  | None => updateStatus (js "Error: No audio available.")
  | Some b =>
      try_catch
        (settle (start_result env);;
         emit (SourceStart b);;
         updateStatus (js "Playing summary..."))
        (λ error, updateStatus (js "Error: Could not play audio."))
  end.

Definition request_body (pageUrl : jsstring) : gmap string jsval :=
  {[ "url" := VStr pageUrl; "summarizer_choice" := VStr (js "gemini") ]}.

Definition http_error (r : response) : jsstring :=
  js "HTTP error! status: " ++ decimal (status r).

(** The callback given to [chrome.tabs.query]. *)
Definition onTabs (env : environment) (tabs : list tab) : M page () :=
  let currentTab := tabs !! 0%nat in
  if (if currentTab is Some t then url_missing (tab_url t) else true) then
    updateStatus (js "Error: Could not get current tab URL.")
  else
    let pageUrl := url_text (currentTab ≫= tab_url) in
    updateStatus (js "Fetching summary for: " ++ take 50 pageUrl ++ js "...");;
    try_catch
      (emit (Fetch SERVER_URL (request_body pageUrl));;
       response ← settle (fetch_result env);
       data ← (if negb (ok response) then
                 try_catch
                   (errData ← response_json response;
                    error ← get_field env errData "error";
                    throw (if truthy error then to_js_string error
                           else http_error response))
                   (λ _, throw (http_error response))
               else response_json response);
       error ← get_field env data "error";
       (if truthy error then throw (to_js_string error) else mret ());;
       summary_text ← get_field env data "summary_text";
       audio_base64 ← get_field env data "audio_base64";
       (if negb (truthy summary_text) || negb (truthy audio_base64)
        then throw (js "Server response missing summary or audio data.")
        else mret ());;
       modify (set_summaryContainer (to_js_string summary_text));;
       updateStatus (js "Decoding audio...");;
       decodedBuffer ← decodeAudioData env (to_js_string audio_base64);
       modify (set_audioBuffer (Some decodedBuffer));;
       modify (set_replayDisabled false);;
       updateStatus (js "Playing summary...");;
       p ← get;
       playAudio env (audioBuffer p))
      (λ error,
         modify (set_replayDisabled true);;
         updateStatus (js "Error: " ++ error);;
         modify (set_summaryContainer []);;
         modify (set_replayDisabled true)).

(** [chrome.tabs.query] with a callback: when the query fails the
    callback still runs, with [tabs] undefined, and reading [tabs[0]]
    is a TypeError nobody catches. *)
Definition onOpen (env : environment) : M page () :=
  emit TabsQuery;;
  match tabs_query env with
  | Return tabs => onTabs env tabs
  | Throw _ => throw (type_error env)
  end.

Definition onReplayClick (env : environment) : M page () :=
  p ← get;
  playAudio env (audioBuffer p).

End PopupOnOpen.

(** ** The popup with a source selector and a Summarize button *)

Module Popup.

Definition showSummaryArea (show : bool) : M page () :=
  modify (set_display show).

Definition resetUI : M page () :=
  updateStatus (js "Select source and click Summarize.");;
  modify (set_summaryContainer []);;
  showSummaryArea false;;
  modify (set_replayDisabled true);;
  modify (set_audioBuffer None).

Definition playAudio (env : environment) (buffer : option AudioBuffer)
  : M page () :=
  match buffer with
  | None => updateStatus (js "Error: No audio available.")
  | Some b =>
      try_catch
        ((if existing_context_state env is Suspended
          then emit ContextResume else mret ());;
         settle (start_result env);;
         emit (SourceStart b);;
         updateStatus (js "Playing summary..."))
        (λ error, updateStatus (js "Error: Could not play audio."))
  end.

Definition server_error (r : response) : jsstring :=
  js "Server error (" ++ decimal (status r) ++ js ")".

Definition fetchSummaryAndPlay (env : environment)
    (requestBody : gmap string jsval) : M page () :=
  updateStatus (js "Requesting summary from server...");;
  modify (set_summarizeDisabled true);;
  try_finally
    (try_catch
       (emit (Fetch SERVER_URL requestBody);;
        response ← settle (fetch_result env);
        (if negb (ok response) then
           errorMsg ← try_catch
             (errData ← response_json response;
              error ← get_field env errData "error";
              mret (if truthy error then to_js_string error
                    else server_error response))
             (λ e, mret (server_error response));
           throw errorMsg
         else mret ());;
        data ← response_json response;
        error ← get_field env data "error";
        (if truthy error then throw (to_js_string error) else mret ());;
        summary_text ← get_field env data "summary_text";
        audio_base64 ← get_field env data "audio_base64";
        (if negb (truthy summary_text) || negb (truthy audio_base64)
         then throw (js "Server response missing summary or audio data.")
         else mret ());;
        modify (set_summaryContainer (to_js_string summary_text));;
        showSummaryArea true;;
        updateStatus (js "Decoding audio...");;
        decoded ← decodeAudioData env (to_js_string audio_base64);
        modify (set_audioBuffer (Some decoded));;
        modify (set_replayDisabled false);;
        p ← get;
        playAudio env (audioBuffer p))
       (λ error,
          updateStatus (js "Error: " ++ error);;
          resetUI;;
          updateStatus (js "Error: " ++ error)))
    (modify (set_summarizeDisabled false)).

(** The click listener of the Summarize button; [selectedValue] is
    [sourceSelect.value]. *)
Definition onSummarizeClick (env : environment) (selectedValue : jsstring)
  : M page () :=
  let requestBody : gmap string jsval :=
    {[ "summarizer_choice" := VStr (js "gemini") ]} in
  resetUI;;
  if bool_decide (selectedValue = js "current_tab") then
    updateStatus (js "Getting current tab URL...");;
    try_catch
      (emit TabsQuery;;
       tabs ← settle (tabs_query env);
       let currentTab := tabs !! 0%nat in
       (if (if currentTab is Some t
            then url_missing (tab_url t) || not_http (url_text (tab_url t))
            else true)
        then throw (js "Invalid URL for current tab.")
        else mret ());;
       let requestBody :=
         <["url" := VStr (url_text (currentTab ≫= tab_url))]> requestBody in
       fetchSummaryAndPlay env requestBody)
      (λ error, updateStatus (js "Error: " ++ error))
  else
    let requestBody := <["rss_url" := VStr selectedValue]> requestBody in
    fetchSummaryAndPlay env requestBody.

Definition onReplayClick (env : environment) : M page () :=
  p ← get;
  playAudio env (audioBuffer p).

(** [loadRssFeeds]: the values of the options added to [sourceSelect] for
    the stored feed list (the label shown for each is not modelled). *)
Definition loadRssFeeds (feeds : list jsstring) : list jsstring :=
  List.filter (λ feedUrl, truthy (VStr feedUrl)) feeds.

End Popup.

(** ** The options page *)

Module Options.

Definition newline : Z := 10.

(** [String.prototype.split] with a one-character separator. *)
Fixpoint split (sep : Z) (s : jsstring) : list jsstring :=
  match s with
  | [] => [[]]
  | c :: s' =>
      if c =? sep then [] :: split sep s'
      else match split sep s' with
           | piece :: pieces => (c :: piece) :: pieces
           | [] => [[c]]
           end
  end.

(** [Array.prototype.join] on an array of strings. *)
Fixpoint join (sep : Z) (pieces : list jsstring) : jsstring :=
  match pieces with
  | [] => []
  | [piece] => piece
  | piece :: pieces => piece ++ sep :: join sep pieces
  end.

(** ECMAScript WhiteSpace and LineTerminator code units, the characters
    [trim] removes. *)
Definition is_js_whitespace (c : Z) : bool :=
  (c =? 9) || (c =? 10) || (c =? 11) || (c =? 12) || (c =? 13) || (c =? 32)
  || (c =? 160) || (c =? 5760) || ((8192 <=? c) && (c <=? 8202))
  || (c =? 8232) || (c =? 8233) || (c =? 8239) || (c =? 8287)
  || (c =? 12288) || (c =? 65279).

Fixpoint trimStart (s : jsstring) : jsstring :=
  match s with
  | [] => []
  | c :: s' => if is_js_whitespace c then trimStart s' else s
  end.

Fixpoint trimEnd (s : jsstring) : jsstring :=
  match s with
  | [] => []
  | c :: s' =>
      match trimEnd s' with
      | [] => if is_js_whitespace c then [] else [c]
      | kept => c :: kept
      end
  end.

Definition trim (s : jsstring) : jsstring := trimEnd (trimStart s).

(** A string that does not begin with whitespace. *)
Definition starts_clean (s : jsstring) : Prop :=
  match s with
  | [] => True
  | c :: _ => is_js_whitespace c = false
  end.

(** The page: the textarea, the status line, and [chrome.storage.sync]
    restricted to the key the extension uses. *)
Record state := {
  rssFeedsTextArea : jsstring;           (* rssFeedsTextArea.value *)
  statusDiv : jsstring;
  storage : gmap string (list jsstring)
}.

(** The array [saveOptions] computes from the textarea content. *)
Definition feedsArray (feedsText : jsstring) : list jsstring :=
  List.filter (λ feed, 0 <? Z.of_nat (length feed))
    (trim <$> split newline feedsText).

Definition saveOptions (st : state) : state :=
  let feedsText := rssFeedsTextArea st in
  {| rssFeedsTextArea := rssFeedsTextArea st;
     statusDiv := js "Options saved.";
     storage := <["rssFeedList" := feedsArray feedsText]> (storage st) |}.

(** [lastError] tells whether [chrome.runtime.lastError] is set when the
    callback of [chrome.storage.sync.get] runs. *)
Definition restoreOptions (lastError : bool) (st : state) : state :=
  let rssFeedList := default [] (storage st !! "rssFeedList") in
  if lastError then
    {| rssFeedsTextArea := rssFeedsTextArea st;
       statusDiv := js "Error loading options.";
       storage := storage st |}
  else
    {| rssFeedsTextArea := join newline rssFeedList;
       statusDiv := statusDiv st;
       storage := storage st |}.

End Options.

(** ** The summarization server, as the specification describes it

    Modelled from the spec: the server ([summarizer_server/]) is not
    among the sources at hand.  Its data and its pipeline follow sections
    3 to 7 of the specification; the external services it calls are
    parameters. *)

Module Pipeline.

Inductive error_kind :=
| InvalidInput
| ExtractionFailure
| ConfigurationError
| ProviderFailure
| SynthesisFailure
| InternalFailure.

Inductive result (A : Type) :=
| Ok (a : A)
| Failed (kind : error_kind) (message : jsstring).
Arguments Ok {A} a.
Arguments Failed {A} kind message.

Inductive source :=
| Url (url : jsstring)
| FeedItem (reference : jsstring).

Inductive provider := primary | secondary.

Record SummarizationRequest := {
  request_source : source;
  request_provider : jsstring
}.

Record ExtractedDocument := { raw_text : jsstring; source_url : jsstring }.

Record PromptPayload := { system_prompt : jsstring; user_prompt : jsstring }.

Record SummaryResult := { summary_text : jsstring; provider_id : provider }.

Record AudioArtifact := { bytes : list Z }.

(** The prompt configuration, read once at start-up; [marker] is the
    fixed text-substitution placeholder. *)
Record TemplateConfig := {
  system_instruction : jsstring;
  user_template : jsstring;
  marker : jsstring
}.

(** The collaborators of section 6. *)
Record collaborators := {
  extract_main_text : jsstring → result jsstring;
  call_provider : provider → PromptPayload → result jsstring;
  synthesis_service : jsstring → result (list Z)
}.

Inductive stage :=
| Extracting
| Prompting
| Summarizing
| Synthesizing
| Encoding.

Global Instance stage_eq_dec : EqDecision stage.
Proof. solve_decision. Defined.

(** Modelled from the spec: the address a request names; an RSS-item
    reference is taken to be the item's address. *)
Definition source_address (s : source) : jsstring :=
  match s with
  | Url url => url
  | FeedItem reference => reference
  end.

(** Modelled from the spec: the Content Extractor (section 4.1).  Only
    http and https addresses are fetched; an empty extraction is a
    failure (scenario C). *)
Definition extract (col : collaborators) (url : jsstring)
  : result ExtractedDocument :=
  if not_http url then Failed InvalidInput (js "unsupported URL scheme")
  else
    match extract_main_text col url with
    | Failed kind message => Failed kind message
    | Ok [] => Failed ExtractionFailure (js "no extractable content")
    | Ok text => Ok {| raw_text := text; source_url := url |}
    end.

(** Modelled from the spec: the first occurrence of the placeholder in a
    template, as the text before it and the text after it. *)
Fixpoint find_marker (mark template : jsstring) : option (jsstring * jsstring) :=
  if startsWith template mark then Some ([], drop (length mark) template)
  else
    match template with
    | [] => None
    | c :: rest =>
        match find_marker mark rest with
        | Some (before, after) => Some (c :: before, after)
        | None => None
        end
    end.

(** [String.prototype.includes]: [sub] occurs somewhere in [s]. *)
Fixpoint includes (s sub : jsstring) : bool :=
  startsWith s sub
  || match s with
     | [] => false
     | _ :: s' => includes s' sub
     end.

(** Modelled from the spec: the Prompt Builder (section 4.2).  The
    extracted text replaces the placeholder of the user-prompt template;
    a template without the placeholder is a configuration error. *)
Definition build (doc : ExtractedDocument) (config : TemplateConfig)
  : result PromptPayload :=
  match find_marker (marker config) (user_template config) with
  | None =>
      Failed ConfigurationError (js "prompt template lacks the text placeholder")
  | Some (before, after) =>
      Ok {| system_prompt := system_instruction config;
            user_prompt := before ++ raw_text doc ++ after |}
  end.

(** Modelled from the spec: the provider identifiers the deployment
    accepts, ['gemini'] and ['openrouter'] in the project's README. *)
Definition parse_provider (id : jsstring) : option provider :=
  if bool_decide (id = js "gemini") then Some primary
  else if bool_decide (id = js "openrouter") then Some secondary
  else None.

(** Modelled from the spec: the Summarization Provider Gateway (section
    4.3).  An unsupported identifier is rejected; a summary is never
    empty on success. *)
Definition summarize (col : collaborators) (payload : PromptPayload)
    (id : jsstring) : result SummaryResult :=
  match parse_provider id with
  | None => Failed InvalidInput (js "unsupported provider")
  | Some p =>
      match call_provider col p payload with
      | Failed kind message => Failed kind message
      | Ok [] => Failed ProviderFailure (js "malformed provider response")
      | Ok text => Ok {| summary_text := text; provider_id := p |}
      end
  end.

(** Modelled from the spec: the Speech Synthesizer Client (section 4.4).
    The text must be non-empty and so must the returned audio. *)
Definition synthesize (col : collaborators) (text : jsstring)
  : result AudioArtifact :=
  match text with
  | [] => Failed SynthesisFailure (js "nothing to synthesize")
  | _ =>
      match synthesis_service col text with
      | Failed kind message => Failed kind message
      | Ok [] => Failed SynthesisFailure (js "empty audio")
      | Ok audio => Ok {| bytes := audio |}
      end
  end.

(** Modelled from the spec: the Pipeline Orchestrator (section 4.5).  The
    stages run in order and the first failure ends the run; the first
    component lists the stages that were entered. *)
Definition run (col : collaborators) (config : TemplateConfig)
    (request : SummarizationRequest)
  : list stage * result (SummaryResult * AudioArtifact) :=
  match extract col (source_address (request_source request)) with
  | Failed kind message => ([Extracting], Failed kind message)
  | Ok doc =>
      match build doc config with
      | Failed kind message => ([Extracting; Prompting], Failed kind message)
      | Ok payload =>
          match summarize col payload (request_provider request) with
          | Failed kind message =>
              ([Extracting; Prompting; Summarizing], Failed kind message)
          | Ok summary =>
              match synthesize col (summary_text summary) with
              | Failed kind message =>
                  ([Extracting; Prompting; Summarizing; Synthesizing],
                   Failed kind message)
              | Ok audio =>
                  ([Extracting; Prompting; Summarizing; Synthesizing; Encoding],
                   Ok (summary, audio))
              end
          end
      end
  end.

(** Some stage of the run of [request] fails with [kind] and [message],
    the stages before it having succeeded. *)
Definition stage_failure (col : collaborators) (config : TemplateConfig)
    (request : SummarizationRequest) (kind : error_kind) (message : jsstring)
  : Prop :=
  let address := source_address (request_source request) in
  extract col address = Failed kind message
  ∨ (∃ doc, extract col address = Ok doc
            ∧ build doc config = Failed kind message)
  ∨ (∃ doc payload,
        extract col address = Ok doc ∧ build doc config = Ok payload
        ∧ summarize col payload (request_provider request)
          = Failed kind message)
  ∨ (∃ doc payload summary,
        extract col address = Ok doc ∧ build doc config = Ok payload
        ∧ summarize col payload (request_provider request) = Ok summary
        ∧ synthesize col (summary_text summary) = Failed kind message).

(** Modelled from the spec: the outbound payload (section 6), the audio
    in its transport encoding. *)
Definition respond (r : result (SummaryResult * AudioArtifact))
  : gmap string jsval :=
  match r with
  | Ok (summary, audio) =>
      {[ "summary_text" := VStr (summary_text summary);
         "audio_base64" := VStr (Base64.b64encode (bytes audio)) ]}
  | Failed kind message => {[ "error" := VStr message ]}
  end.

End Pipeline.

(** ** Observations on a handler run *)

(** The request bodies sent to the server, in order. *)
Definition fetch_bodies (t : list event) : list (gmap string jsval) :=
  omap (λ e, if e is Fetch _ body then Some body else None) t.

(** The steps of a handler that reach outside the page, and those a
    trace shows, in order. *)
Inductive step := QueryTabs | SendRequest | DecodeAudio | StartPlayback.

Global Instance step_eq_dec : EqDecision step.
Proof. solve_decision. Defined.

Definition step_of (e : event) : option step :=
  match e with
  | TabsQuery => Some QueryTabs
  | Fetch _ _ => Some SendRequest
  | DecodeAudioData _ => Some DecodeAudio
  | SourceStart _ => Some StartPlayback
  | _ => None
  end.

Definition steps (t : list event) : list step := omap step_of t.

(** What follows the request in a trace: no further request, and at
    most one decoding followed by at most one start of playback. *)
Definition after_request (t : list event) : Prop :=
  fetch_bodies t = []
  ∧ steps t ∈ [[]; [DecodeAudio]; [DecodeAudio; StartPlayback]].

(** [data.field] for the parsed body of a response, [undefined] when the
    body is not an object. *)
Definition field (r : response) (name : string) : jsval :=
  match body r with
  | JsonObject fields => default VUndefined (fields !! name)
  | _ => VUndefined
  end.

(** The responses the popup treats as a success: an ok status, no error
    field, and both a summary and audio. *)
Definition usable (r : response) : bool :=
  ok r && negb (truthy (field r "error"))
  && truthy (field r "summary_text") && truthy (field r "audio_base64").

(** The popup after an error: the status line shows the error, no
    summary is displayed and replay is disabled. *)
Record failed (message : jsstring) (p : page) : Prop := {
  failed_status : statusDiv p = js "Error: " ++ message;
  failed_summary : summaryContainer p = [];
  failed_replay : replayDisabled p = true
}.

(** The popup after a success. *)
Record succeeded (summary : jsstring) (buffer : AudioBuffer) (p : page)
  : Prop := {
  succeeded_summary : summaryContainer p = summary;
  succeeded_replay : replayDisabled p = false;
  succeeded_audio : audioBuffer p = Some buffer
}.

(** The message of the error raised for a response that is not usable. *)
Definition rejection_message (env : environment) (unexpected : response → jsstring)
    (r : response) : jsstring :=
  if ok r then
    match body r with
    | NotJson message => message
    | JsonNull => type_error env
    | JsonObject _ =>
        if truthy (field r "error") then to_js_string (field r "error")
        else js "Server response missing summary or audio data."
    end
  else unexpected r.

(** The message of the error the source-selector popup raises for a
    response whose status is not ok. *)
Definition server_message (r : response) : jsstring :=
  if truthy (field r "error") then to_js_string (field r "error")
  else Popup.server_error r.

(** What a popup shows once its request has been answered, and what the
    rest [t] of the trace is: either the summary with its decoded audio,
    or an error with nothing displayed.  [before] is the audio buffer the
    page holds when the request is sent. *)
Definition answered (env : environment) (unexpected : response → jsstring)
    (before : option AudioBuffer) (p' : page) (t : list event) : Prop :=
  match fetch_result env with
  | Throw e => t = [] ∧ failed e p' ∧ audioBuffer p' = before
  | Return r =>
      if usable r then
        match Base64.atob (to_js_string (field r "audio_base64")) with
        | None =>
            t = [] ∧ failed (invalid_character_error env) p'
            ∧ audioBuffer p' = before
        | Some binaryString =>
            let bytes := Base64.fill_bytes binaryString in
            match decodeAudioData_result env bytes with
            | Throw e =>
                t = [DecodeAudioData bytes] ∧ failed e p'
                ∧ audioBuffer p' = before
            | Return buffer =>
                head t = Some (DecodeAudioData bytes)
                ∧ succeeded (to_js_string (field r "summary_text")) buffer p'
            end
        end
      else
        t = [] ∧ failed (rejection_message env unexpected r) p'
        ∧ audioBuffer p' = before
  end.

(** The request body every handler starts from, and its two completed
    forms. *)
Definition base_request : gmap string jsval :=
  {[ "summarizer_choice" := VStr (js "gemini") ]}.

Definition url_request (url : jsstring) : gmap string jsval :=
  <["url" := VStr url]> base_request.

Definition rss_request (rss_url : jsstring) : gmap string jsval :=
  <["rss_url" := VStr rss_url]> base_request.

(** The traces of the extension's event handlers. *)
Inductive handler_run : list event → Prop :=
| run_open_popup t :
    handler_run (BackgroundOpener.onClicked t ()).2
| run_toolbar env t s :
    handler_run (Background.onClicked env t s).2
| run_popup_open env p :
    handler_run (PopupOnOpen.onOpen env p).2
| run_popup_open_replay env p :
    handler_run (PopupOnOpen.onReplayClick env p).2
| run_summarize env selectedValue p :
    handler_run (Popup.onSummarizeClick env selectedValue p).2
| run_replay env p :
    handler_run (Popup.onReplayClick env p).2.

(** The first tab of a query result has no address a summary can be
    requested for. *)
Definition no_summarizable_tab (tabs : list tab) : bool :=
  match tabs !! 0%nat with
  | Some t => url_missing (tab_url t) || not_http (url_text (tab_url t))
  | None => true
  end.

(** A predicate transformer for handler runs: [wp m s Q] says that
    running [m] from state [s] ends in an outcome, a state and a trace
    that satisfy [Q]. *)
Definition wp {S A} (m : M S A) (s : S)
    (Q : outcome A → S → list event → Prop) : Prop :=
  Q (m s).1.1 (m s).1.2 (m s).2.

(** ** Observations on the popup page and on the toolbar listener *)

(** The source-selector popup's page hangs together: the summary area is
    shown exactly when replay is enabled, replay is enabled exactly when
    a decoded buffer is held, and with replay disabled no summary text is
    left. *)
Definition consistent (p : page) : Prop :=
  summaryShown p = negb (replayDisabled p)
  ∧ controlsShown p = summaryShown p
  ∧ replayDisabled p = (if audioBuffer p is Some _ then false else true)
  ∧ (replayDisabled p = true → summaryContainer p = []).

(** What the page says about an attempt to play the buffer it holds:
    playback of that buffer was the last thing done, or the failure is
    on the status line and nothing was started. *)
Definition playback_reported (env : environment) (p : page) (t : list event)
  : Prop :=
  match start_result env with
  | Return _ =>
      statusDiv p = js "Playing summary..."
      ∧ ∃ buffer, audioBuffer p = Some buffer
                  ∧ last t = Some (SourceStart buffer)
  | Throw _ =>
      statusDiv p = js "Error: Could not play audio."
      ∧ ∀ buffer, SourceStart buffer ∉ t
  end.

(** The notifications raised, the buffers started, the badge texts set
    and the addresses requested in a trace, in order. *)
Definition notifications (t : list event) : list (jsstring * jsstring) :=
  omap (λ e, if e is Notification title message
             then Some (title, message) else None) t.

Definition started (t : list event) : list AudioBuffer :=
  omap (λ e, if e is SourceStart buffer then Some buffer else None) t.

Definition badge_texts (t : list event) : list jsstring :=
  omap (λ e, if e is BadgeText text then Some text else None) t.

Definition fetch_targets (t : list event) : list jsstring :=
  omap (λ e, if e is Fetch url _ then Some url else None) t.

(** The message of the error the toolbar listener raises for a response
    whose status is not ok. *)
Definition toolbar_server_message (r : response) : jsstring :=
  let errorMsg := Background.prefix_server_error ++ decimal (status r) in
  match body r with
  | JsonObject _ =>
      if truthy (field r "error") then to_js_string (field r "error")
      else errorMsg
  | _ => errorMsg ++ js ": " ++ statusText r
  end.

(** The notification of the toolbar listener's [catch] block. *)
Definition processing_error (message : jsstring) : jsstring * jsstring :=
  (Background.title_processing_error,
   Background.prefix_error_occurred ++ message).

(** The background script after [playAudio] was given [bytes]: a context
    exists, and either the decoded buffer was started and is the current
    source, or nothing was started, no source is current and one
    notification says why. *)
Definition toolbar_playback (env : environment) (bytes : list Z)
    (s' : Background.state) (t : list event) : Prop :=
  Background.audioContext s' = true
  ∧ match decodeAudioData_result env bytes with
    | Return buffer =>
        match start_result env with
        | Return _ =>
            Background.currentAudioSource s' = Some buffer
            ∧ started t = [buffer] ∧ notifications t = []
        | Throw e =>
            Background.currentAudioSource s' = None
            ∧ started t = []
            ∧ notifications t
              = [(Background.title_play_error,
                  Background.prefix_cannot_play ++ e)]
        end
    | Throw e =>
        Background.currentAudioSource s' = None
        ∧ started t = []
        ∧ notifications t
          = [(Background.title_play_error, Background.prefix_cannot_play ++ e)]
    end.

(** The toolbar listener once its request has been answered: what it
    notified and started, and what became of the script's globals [s]. *)
Definition toolbar_answered (env : environment) (s s' : Background.state)
    (t : list event) : Prop :=
  let quiet (n : list (jsstring * jsstring)) :=
    s' = s ∧ started t = [] ∧ notifications t = n in
  match fetch_result env with
  | Throw e => quiet [processing_error e]
  | Return r =>
      if ok r then
        match body r with
        | NotJson message => quiet [processing_error message]
        | JsonNull => quiet [processing_error (type_error env)]
        | JsonObject _ =>
            if truthy (field r "error") then
              quiet [processing_error (to_js_string (field r "error"))]
            else if Background.length_positive (field r "audio_base64") then
              match Base64.atob (to_js_string (field r "audio_base64")) with
              | None =>
                  quiet [(Background.title_play_error,
                          Background.message_bad_audio);
                         processing_error
                           (js "Invalid Base64 audio data received.")]
              | Some binaryString =>
                  toolbar_playback env (Base64.fill_bytes binaryString) s' t
              end
            else
              quiet [(Background.title_summary_result,
                      Background.message_no_audio)]
        end
      else quiet [processing_error (toolbar_server_message r)]
  end.

(** The environment in which the server's answer, when it is an object,
    has its field [name] set to [v]. *)
Definition with_field (name : string) (v : jsval) (env : environment)
  : environment :=
  {| tabs_query := tabs_query env;
     fetch_result :=
       match fetch_result env with
       | Return r =>
           Return {| ok := ok r; status := status r;
                     statusText := statusText r;
                     body := match body r with
                             | JsonObject fields =>
                                 JsonObject (<[name := v]> fields)
                             | b => b
                             end |}
       | Throw e => Throw e
       end;
     decodeAudioData_result := decodeAudioData_result env;
     existing_context_state := existing_context_state env;
     fresh_context_state := fresh_context_state env;
     start_result := start_result env;
     stop_result := stop_result env;
     invalid_character_error := invalid_character_error env;
     type_error := type_error env |}.

(** ** Sample inputs *)

Module Sample.

Definition tab_of (url : string) : tab :=
  {| tab_id := 1; tab_url := Some (js url) |}.

(** A world in which the server cannot be reached. *)
Definition offline (tabs : list tab) : environment :=
  {| tabs_query := Return tabs;
     fetch_result := Throw (js "Failed to fetch");
     decodeAudioData_result := λ bytes, Return (Decoded bytes);
     existing_context_state := Running;
     fresh_context_state := Running;
     start_result := Return ();
     stop_result := Return ();
     invalid_character_error := js "The string to be decoded is not correctly encoded.";
     type_error := js "Cannot read properties of null" |}.

(** A world in which the server answers with [r]. *)
Definition online (tabs : list tab) (r : response) : environment :=
  {| tabs_query := Return tabs;
     fetch_result := Return r;
     decodeAudioData_result := λ bytes, Return (Decoded bytes);
     existing_context_state := Running;
     fresh_context_state := Running;
     start_result := Return ();
     stop_result := Return ();
     invalid_character_error := js "The string to be decoded is not correctly encoded.";
     type_error := js "Cannot read properties of null" |}.

Definition fresh_page : page :=
  {| statusDiv := []; summaryContainer := []; summaryShown := false;
     controlsShown := false; replayDisabled := true;
     summarizeDisabled := false; audioBuffer := None |}.

Definition fresh_background : Background.state :=
  {| Background.audioContext := false; Background.currentAudioSource := None |}.

Definition ftp_feed : jsstring := js "ftp://example.com/feed.xml".

Definition internal_page : tab := tab_of "chrome://extensions".

Definition article : tab := tab_of "https://example.com/article".

(** The server's answer when speech synthesis failed after the summary
    had been produced. *)
Definition synthesis_failed : response :=
  {| ok := false; status := 500; statusText := js "INTERNAL SERVER ERROR";
     body := JsonObject {[ "error" := VStr (js "TTS service unreachable") ]} |}.

(** An answer that carries a summary but no audio. *)
Definition summary_only : response :=
  {| ok := true; status := 200; statusText := js "OK";
     body := JsonObject {[ "summary_text" := VStr (js "A summary.") ]} |}.

(** A complete answer: a summary and the audio bytes [82; 73; 70; 70]
    in base64. *)
Definition complete : response :=
  {| ok := true; status := 200; statusText := js "OK";
     body := JsonObject {[ "summary_text" := VStr (js "A summary.");
                           "audio_base64" := VStr (js "UklGRg==") ]} |}.

Definition services (speech : jsstring → Pipeline.result (list Z))
  : Pipeline.collaborators :=
  {| Pipeline.extract_main_text := λ url, Pipeline.Ok (js "Article text.");
     Pipeline.call_provider := λ p payload, Pipeline.Ok (js "A summary.");
     Pipeline.synthesis_service := speech |}.

Definition speech_down : jsstring → Pipeline.result (list Z) :=
  λ text, Pipeline.Failed Pipeline.SynthesisFailure (js "TTS service unreachable").

Definition speech_up : jsstring → Pipeline.result (list Z) :=
  λ text, Pipeline.Ok [82; 73; 70; 70].

Definition template : Pipeline.TemplateConfig :=
  {| Pipeline.system_instruction := js "You summarize articles.";
     Pipeline.user_template := js "Summarize: {text} Thanks.";
     Pipeline.marker := js "{text}" |}.

Definition request : Pipeline.SummarizationRequest :=
  {| Pipeline.request_source := Pipeline.Url (js "https://example.com/article");
     Pipeline.request_provider := js "gemini" |}.

(** A complete answer whose audio is not base64. *)
Definition garbled : response :=
  {| ok := true; status := 200; statusText := js "OK";
     body := JsonObject {[ "summary_text" := VStr (js "A summary.");
                           "audio_base64" := VStr (js "a*b=") ]} |}.

(** The options page with [text] typed into the textarea and nothing
    stored. *)
Definition options_page (text : jsstring) : Options.state :=
  {| Options.rssFeedsTextArea := text; Options.statusDiv := [];
     Options.storage := ∅ |}.

End Sample.

(** * Proofs *)

Arguments js : simpl never.

Ltac unfold_m :=
  unfold mbind, mret, M_bind, M_ret, bind, ret, try_catch, try_finally,
    emit, modify, get, throw, settle.

(** ** Base64: encoding then decoding gives the bytes back *)

Section base64.
Import Base64.

Lemma shiftr_div (a k : Z) : 0 ≤ k → Z.shiftr a k = a / 2 ^ k.
Proof. intros. by apply Z.shiftr_div_pow2. Qed.

Lemma shiftl_mul (a k : Z) : 0 ≤ k → Z.shiftl a k = a * 2 ^ k.
Proof. intros. by apply Z.shiftl_mul_pow2. Qed.

Lemma land_low (a k : Z) : 0 ≤ k → Z.land a (2 ^ k - 1) = a mod 2 ^ k.
Proof.
  intros. rewrite <- Z.land_ones by done. f_equal.
  rewrite Z.ones_equiv. lia.
Qed.

Lemma lor_add (hi lo k : Z) :
  0 ≤ k → 0 ≤ lo < 2 ^ k → Z.lor (hi * 2 ^ k) lo = hi * 2 ^ k + lo.
Proof.
  intros Hk Hlo.
  assert (Z.land (hi * 2 ^ k) lo = 0) as Hdisj.
  { apply Z.bits_inj'. intros n Hn. rewrite Z.land_spec, Z.bits_0.
    destruct (Z.lt_ge_cases n k).
    - rewrite Z.mul_pow2_bits_low by lia. done.
    - rewrite <- (Z.mod_small lo (2 ^ k)) by lia.
      rewrite Z.mod_pow2_bits_high by lia. apply andb_false_r. }
  rewrite <- Z.lxor_lor by done. symmetry. by apply Z.add_nocarry_lxor.
Qed.

Lemma list_ind3 {A} (P : list A → Prop) :
  P [] → (∀ a, P [a]) → (∀ a b, P [a; b]) →
  (∀ a b c l, P l → P (a :: b :: c :: l)) → ∀ l, P l.
Proof.
  intros H0 H1 H2 H3 l.
  cut (P l ∧ (∀ a, P (a :: l)) ∧ (∀ a b, P (a :: b :: l))); [tauto|].
  induction l as [|x l (IH0 & IH1 & IH2)]; [by auto|].
  split_and!; [apply IH1 | intros; apply IH2 | intros; by apply H3].
Qed.

Lemma b64encode_shape bytes :
  b64encode bytes = (b64_char <$> sextets bytes) ++ padding bytes.
Proof.
  induction bytes as [|a|a b|a b c l IH] using list_ind3; try done.
  cbn [b64encode sextets padding]. rewrite IH, fmap_app. done.
Qed.

Ltac to_arith :=
  change 3 with (2 ^ 2 - 1) in *; change 15 with (2 ^ 4 - 1) in *;
  change 63 with (2 ^ 6 - 1) in *; change 255 with (2 ^ 8 - 1) in *;
  rewrite ?land_low, ?shiftr_div, ?shiftl_mul by lia;
  repeat match goal with
    | |- context [Z.lor (?hi * 2 ^ ?k) ?lo] =>
        rewrite (lor_add hi lo k) by (try lia; Z.div_mod_to_equations; lia)
    end;
  change (2 ^ 2) with 4 in *; change (2 ^ 4) with 16 in *;
  change (2 ^ 6) with 64 in *; change (2 ^ 8) with 256 in *;
  change (2 ^ 16) with 65536 in *.

Lemma sextets_range bytes :
  Forall is_byte bytes → Forall (λ v, 0 ≤ v < 64) (sextets bytes).
Proof.
  unfold is_byte.
  induction bytes as [|a|a b|a b c l IH] using list_ind3; intros Hb;
    cbn [sextets]; decompose_Forall_hyps; repeat constructor;
    try (by apply IH);
    to_arith; Z.div_mod_to_equations; lia.
Qed.

Ltac div_mod := Z.div_mod_to_equations; lia.

Lemma join_one a : 0 ≤ a < 256 →
  ((0 * 64 + a `div` 4) * 64 + a `mod` 4 * 16) `div` 16 = a.
Proof.
  intros. replace ((0 * 64 + a `div` 4) * 64 + a `mod` 4 * 16) with (a * 16)
    by div_mod.
  by apply Z.div_mul.
Qed.

Lemma join_two a b : 0 ≤ a < 256 → 0 ≤ b < 256 →
  (((0 * 64 + a `div` 4) * 64 + (a `mod` 4 * 16 + b `div` 16)) * 64
     + b `mod` 16 * 4) `div` 4 = a * 256 + b.
Proof.
  intros.
  replace (((0 * 64 + a `div` 4) * 64 + (a `mod` 4 * 16 + b `div` 16)) * 64
             + b `mod` 16 * 4) with ((a * 256 + b) * 4) by div_mod.
  by apply Z.div_mul.
Qed.

Lemma join_three a b c : 0 ≤ a < 256 → 0 ≤ b < 256 → 0 ≤ c < 256 →
  (((0 * 64 + a `div` 4) * 64 + (a `mod` 4 * 16 + b `div` 16)) * 64
     + (b `mod` 16 * 4 + c `div` 64)) * 64 + c `mod` 64
  = a * 65536 + b * 256 + c.
Proof. intros. div_mod. Qed.

Lemma atob_loop_sextets bytes :
  Forall is_byte bytes → atob_loop 0 0 (sextets bytes) = bytes.
Proof.
  unfold is_byte.
  induction bytes as [|a|a b|a b c l IH] using list_ind3; intros Hb;
    decompose_Forall_hyps.
  - done.
  - cbn. f_equal. to_arith. by apply join_one.
  - cbn. to_arith. rewrite join_two by done.
    f_equal; [|f_equal]; div_mod.
  - cbn [sextets app]. 
    change (atob_loop 0 0 (?s0 :: ?s1 :: ?s2 :: ?s3 :: ?rest))
      with (let buffer := Z.lor (Z.shiftl (Z.lor (Z.shiftl (Z.lor (Z.shiftl
                   (Z.lor (Z.shiftl 0 6) s0) 6) s1) 6) s2) 6) s3 in
            [Z.land (Z.shiftr buffer 16) 255; Z.land (Z.shiftr buffer 8) 255;
             Z.land buffer 255] ++ atob_loop 0 0 rest).
    cbv zeta. rewrite IH by done. cbn [app].
    to_arith. rewrite join_three by done.
    f_equal; [|f_equal; [|f_equal]]; div_mod.
Qed.

Ltac case_cmp :=
  repeat (match goal with
          | |- context [?a <=? ?b] => destruct (Z.leb_spec a b)
          | |- context [?a <? ?b] => destruct (Z.ltb_spec a b)
          | |- context [?a =? ?b] => destruct (Z.eqb_spec a b)
          end; cbn [andb orb negb]).

Lemma b64_value_char v : 0 ≤ v < 64 → b64_value (b64_char v) = Some v.
Proof.
  intros. unfold b64_char. case_cmp; unfold b64_value; case_cmp;
    cbn [andb]; try lia; f_equal; lia.
Qed.

Lemma b64_char_not_whitespace v :
  0 ≤ v < 64 → is_ascii_whitespace (b64_char v) = false.
Proof.
  intros. unfold b64_char. case_cmp; unfold is_ascii_whitespace; case_cmp;
    try done; lia.
Qed.

Lemma b64_char_not_pad v : 0 ≤ v < 64 → b64_char v ≠ pad.
Proof. intros. unfold pad, b64_char. case_cmp; lia. Qed.

Lemma padding_cases bytes :
  padding bytes = [] ∨ padding bytes = [pad] ∨ padding bytes = [pad; pad].
Proof. induction bytes using list_ind3; cbn [padding]; auto. Qed.

(** length bookkeeping: data plus padding is a multiple of four, and the
    data alone never leaves remainder one *)
Lemma sextets_length bytes :
  ∃ k : nat,
    (length (sextets bytes) + length (padding bytes) = 4 * k)%nat
    ∧ (length (padding bytes) ≤ 2)%nat
    ∧ (length (padding bytes) = 0 ∨ 2 ≤ length (sextets bytes))%nat.
Proof.
  induction bytes as [|a|a b|a b c l (k & IH1 & IH2 & IH3)] using list_ind3.
  - exists 0%nat. cbn. lia.
  - exists 1%nat. cbn. lia.
  - exists 1%nat. cbn. lia.
  - exists (S k). cbn [sextets padding]. rewrite length_app. cbn [length]. lia.
Qed.

Lemma remove_whitespace_id (data : list Z) :
  Forall (λ c, is_ascii_whitespace c = false) data →
  remove_whitespace data = data.
Proof.
  unfold remove_whitespace. induction 1 as [|c l Hc _ IH]; [done|].
  cbn [List.filter]. rewrite Hc. cbn. by rewrite IH.
Qed.

Lemma ends_with_pad_snoc (data : list Z) c :
  ends_with_pad (data ++ [c]) = (c =? pad).
Proof. unfold ends_with_pad. by rewrite last_snoc. Qed.

Lemma ends_with_pad_data (data : list Z) :
  Forall (λ c, c ≠ pad) data → ends_with_pad data = false.
Proof.
  intros Hd. destruct data as [|c l] using rev_ind; [done|].
  rewrite ends_with_pad_snoc. apply Forall_app in Hd as [_ Hc%Forall_inv].
  by apply Z.eqb_neq.
Qed.

Lemma strip_padding_encoded (data padding : list Z) :
  Forall (λ c, c ≠ pad) data →
  padding = [] ∨ padding = [pad] ∨ padding = [pad; pad] →
  Z.of_nat (length (data ++ padding)) mod 4 = 0 →
  strip_padding (data ++ padding) = data.
Proof.
  intros Hd Hp Hlen. unfold strip_padding.
  rewrite Hlen. cbn [Z.eqb].
  destruct Hp as [-> | [-> | ->]].
  - rewrite app_nil_r. by rewrite ends_with_pad_data.
  - rewrite ends_with_pad_snoc, removelast_last. cbn.
    by rewrite ends_with_pad_data.
  - change [pad; pad] with ([pad] ++ [pad]). rewrite app_assoc.
    rewrite ends_with_pad_snoc, removelast_last. cbn.
    rewrite ends_with_pad_snoc, removelast_last. done.
Qed.

Lemma mapM_b64_value (vs : list Z) :
  Forall (λ v, 0 ≤ v < 64) vs → mapM b64_value (b64_char <$> vs) = Some vs.
Proof.
  intros Hvs. apply mapM_Some. induction Hvs; constructor; [|done].
  by apply b64_value_char.
Qed.

Theorem atob_b64encode bytes :
  Forall is_byte bytes → atob (b64encode bytes) = Some bytes.
Proof.
  intros Hb. pose proof (sextets_range _ Hb) as Hr.
  destruct (sextets_length bytes) as (k & Hk & Hp2 & Hp0).
  assert (Forall (λ c, c ≠ pad) (b64_char <$> sextets bytes)) as Hnp.
  { apply Forall_fmap. eapply Forall_impl; [done|]. apply b64_char_not_pad. }
  unfold atob. rewrite remove_whitespace_id.
  2:{ rewrite b64encode_shape. apply Forall_app. split.
      - apply Forall_fmap. eapply Forall_impl; [done|].
        apply b64_char_not_whitespace.
      - destruct (padding_cases bytes) as [-> | [-> | ->]];
          repeat constructor. }
  rewrite b64encode_shape, strip_padding_encoded; [|done|apply padding_cases|].
  2:{ rewrite length_app, length_fmap, Hk, Nat2Z.inj_mul, Z.mul_comm.
      by apply Z.mod_mul. }
  rewrite length_fmap.
  destruct (Z.eqb_spec (Z.of_nat (length (sextets bytes)) mod 4) 1) as [Hone|_].
  { exfalso. div_mod. }
  rewrite mapM_b64_value by done. by rewrite atob_loop_sextets.
Qed.

Lemma fill_loop (store : nat → Z) n (filled : list Z) :
  foldl (λ bytes i, <[i := store i]> bytes)
    (filled ++ replicate n 0) (seq (length filled) n)
  = filled ++ (store <$> seq (length filled) n).
Proof.
  revert filled. induction n as [|n IH]; intros filled; [done|].
  cbn [seq foldl replicate fmap list_fmap].
  replace (<[length filled := store (length filled)]>
             (filled ++ 0 :: replicate n 0))
    with ((filled ++ [store (length filled)]) ++ replicate n 0).
  2:{ rewrite <- (Nat.add_0_r (length filled)) at 2.
      rewrite insert_app_r. cbn. by rewrite <- app_assoc. }
  specialize (IH (filled ++ [store (length filled)])).
  rewrite length_app in IH. cbn [length] in IH.
  rewrite Nat.add_1_r in IH. rewrite IH. by rewrite <- app_assoc.
Qed.

Lemma fill_bytes_spec (binaryString : list Z) :
  fill_bytes binaryString = (λ c, c mod 256) <$> binaryString.
Proof.
  unfold fill_bytes.
  pose proof (fill_loop (λ i, to_uint8 (charCodeAt binaryString i))
                (length binaryString) []) as Hloop.
  cbn [app length] in Hloop. rewrite Hloop. clear Hloop.
  unfold charCodeAt.
  induction binaryString as [|c l IH]; [done|].
  cbn [length seq fmap list_fmap]. f_equal.
  rewrite <- fmap_S_seq, <- list_fmap_compose. apply IH.
Qed.

Lemma fill_bytes_bytes (bytes : list Z) :
  Forall is_byte bytes → fill_bytes bytes = bytes.
Proof.
  intros Hb. rewrite fill_bytes_spec. induction Hb as [|b l Hb _ IH]; [done|].
  cbn. rewrite IH. f_equal. apply Z.mod_small. apply Hb.
Qed.

(** The decoder accepts exactly the valid strings. *)
Lemma b64_value_alphabet c : is_Some (b64_value c) ↔ in_alphabet c = true.
Proof.
  unfold b64_value, in_alphabet. case_cmp; cbn; split; intros Hc;
    try done; try (by eexists); by destruct Hc.
Qed.

Lemma mapM_b64_value_alphabet (data : list Z) :
  is_Some (mapM b64_value data) ↔ forallb in_alphabet data = true.
Proof.
  rewrite mapM_is_Some, forallb_forall, Forall_forall.
  split; intros H c Hc.
  - apply b64_value_alphabet, H. by apply list_elem_of_In.
  - apply b64_value_alphabet, H. by apply list_elem_of_In.
Qed.

Lemma atob_valid (base64 : list Z) :
  is_Some (atob base64) ↔ valid_base64 base64 = true.
Proof.
  unfold atob, valid_base64. cbv zeta.
  set (data := strip_padding (remove_whitespace base64)).
  pose proof (mapM_b64_value_alphabet data) as Ha.
  destruct (Z.of_nat (length data) mod 4 =? 1).
  - rewrite andb_false_r. split; [by intros []|done].
  - rewrite andb_true_r, <- Ha. by destruct (mapM b64_value data).
Qed.

(** C2: for every byte sequence, its base64 transport encoding decoded
    by [base64ToArrayBuffer], and by the [atob]/[charCodeAt] loop of
    [decodeAudioData], is the same sequence again: same length, same byte
    at every index. *)
Theorem audio_base64_round_trip (env : environment) (bytes : list Z)
    (st : Background.state) (p : page) :
  Forall is_byte bytes →
  ∃ out : list Z,
    Background.base64ToArrayBuffer env (b64encode bytes) st
      = (Return out, st, [])
    ∧ (decodeAudioData env (b64encode bytes) p).2 = [DecodeAudioData out]
    ∧ length out = length bytes
    ∧ ∀ i : nat, out !! i = bytes !! i.
Proof.
  intros Hb. exists bytes. split_and!; try done.
  - unfold Background.base64ToArrayBuffer. unfold_m.
    by rewrite atob_b64encode, fill_bytes_bytes.
  - unfold decodeAudioData, updateStatus. unfold_m.
    rewrite atob_b64encode, fill_bytes_bytes by done.
    by destruct (decodeAudioData_result env bytes).
Qed.

Lemma audio_base64_round_trip_witness :
  ∃ out : list Z,
    Background.base64ToArrayBuffer (Sample.offline []) (b64encode [82; 73; 70; 70; 255])
      Sample.fresh_background
      = (Return out, Sample.fresh_background, [])
    ∧ (decodeAudioData (Sample.offline []) (b64encode [82; 73; 70; 70; 255])
         Sample.fresh_page).2 = [DecodeAudioData out]
    ∧ length out = length [82; 73; 70; 70; 255]
    ∧ ∀ i : nat, out !! i = [82; 73; 70; 70; 255] !! i.
Proof.
  apply (audio_base64_round_trip (Sample.offline []) [82; 73; 70; 70; 255]).
  repeat constructor; unfold is_byte; lia.
Defined.

(** C9: on a string that is not valid base64, [base64ToArrayBuffer]
    notifies the user and raises an error instead of returning a buffer;
    on a valid one it returns a buffer as long as the decoded binary
    string. *)
Theorem base64ToArrayBuffer_total (env : environment) (base64 : list Z)
    (st : Background.state) :
  if valid_base64 base64 then
    ∃ binaryString buffer,
      atob base64 = Some binaryString
      ∧ Background.base64ToArrayBuffer env base64 st = (Return buffer, st, [])
      ∧ length buffer = length binaryString
  else
    Background.base64ToArrayBuffer env base64 st
    = (Throw (js "Invalid Base64 audio data received."), st,
       [Notification Background.title_play_error Background.message_bad_audio]).
Proof.
  pose proof (atob_valid base64) as Hv.
  unfold Background.base64ToArrayBuffer. unfold_m.
  destruct (valid_base64 base64).
  - destruct (proj2 Hv eq_refl) as [binaryString Hs]. rewrite Hs.
    exists binaryString, (fill_bytes binaryString). split_and!; try done.
    by rewrite fill_bytes_spec, length_fmap.
  - destruct (atob base64) as [binaryString|] eqn:Hs; [|done].
    by destruct Hv as [Hv _]; specialize (Hv (mk_is_Some _ _ eq_refl)).
Qed.

Example atob_hello : atob (js "aGVsbG8=") = Some (js "hello").
Proof. reflexivity. Qed.

Example atob_without_padding : atob (js "YQ") = Some (js "a").
Proof. reflexivity. Qed.

Example atob_rejects : atob (js "a*b=") = None ∧ valid_base64 (js "abcde") = false.
Proof. split; reflexivity. Qed.

Example b64encode_hello : b64encode (js "hello") = js "aGVsbG8=".
Proof. reflexivity. Qed.

Example base64ToArrayBuffer_rejects :
  Background.base64ToArrayBuffer (Sample.offline []) (js "a*b=")
    Sample.fresh_background
  = (Throw (js "Invalid Base64 audio data received."), Sample.fresh_background,
     [Notification Background.title_play_error Background.message_bad_audio]).
Proof. reflexivity. Qed.

Example base64ToArrayBuffer_accepts :
  Background.base64ToArrayBuffer (Sample.offline []) (js "UklG Rg")
    Sample.fresh_background
  = (Return [82; 73; 70; 70], Sample.fresh_background, []).
Proof. reflexivity. Qed.

End base64.

(** ** The options page: saving what was restored changes nothing *)

Section options.
Import Options.

Lemma split_no_sep sep s : Forall (λ piece, sep ∉ piece) (split sep s).
Proof.
  induction s as [|c s IH]; cbn.
  - repeat constructor. apply not_elem_of_nil.
  - destruct (Z.eqb_spec c sep) as [->|Hne].
    + constructor; [apply not_elem_of_nil|done].
    + destruct (split sep s) as [|piece pieces].
      * repeat constructor. apply not_elem_of_cons.
        split; [done|apply not_elem_of_nil].
      * apply Forall_cons in IH as [Hpiece Hpieces].
        constructor; [|done]. by apply not_elem_of_cons.
Qed.

Lemma split_piece sep (piece : list Z) :
  sep ∉ piece → split sep piece = [piece].
Proof.
  induction piece as [|c piece IH]; intros Hp; [done|].
  cbn. apply not_elem_of_cons in Hp as [Hc Hp].
  destruct (Z.eqb_spec c sep); [done|]. by rewrite IH.
Qed.

Lemma split_app sep (piece rest : list Z) :
  sep ∉ piece → split sep (piece ++ sep :: rest) = piece :: split sep rest.
Proof.
  induction piece as [|c piece IH]; intros Hp; cbn.
  - by rewrite Z.eqb_refl.
  - apply not_elem_of_cons in Hp as [Hc Hp].
    destruct (Z.eqb_spec c sep); [done|]. by rewrite IH.
Qed.

Lemma split_join sep (pieces : list (list Z)) :
  pieces ≠ [] → Forall (λ piece, sep ∉ piece) pieces →
  split sep (join sep pieces) = pieces.
Proof.
  induction pieces as [|piece pieces IH]; intros Hne Hp; [done|].
  apply Forall_cons in Hp as [Hpiece Hp].
  destruct pieces as [|piece' pieces].
  - cbn. by apply split_piece.
  - change (join sep (piece :: piece' :: pieces))
      with (piece ++ sep :: join sep (piece' :: pieces)).
    rewrite split_app by done. f_equal. by apply IH.
Qed.

Lemma trimStart_keeps (P : Z → Prop) s : Forall P s → Forall P (trimStart s).
Proof.
  induction 1 as [|c s Hc Hs IH]; cbn; [done|].
  destruct (is_js_whitespace c); [done|by constructor].
Qed.

Lemma trimEnd_keeps (P : Z → Prop) s : Forall P s → Forall P (trimEnd s).
Proof.
  induction 1 as [|c s Hc Hs IH]; cbn; [done|].
  destruct (trimEnd s); [|by constructor].
  destruct (is_js_whitespace c); [done|by repeat constructor].
Qed.

Lemma trim_keeps (P : Z → Prop) s : Forall P s → Forall P (trim s).
Proof. intros. by apply trimEnd_keeps, trimStart_keeps. Qed.

Lemma trimStart_clean s : starts_clean (trimStart s).
Proof.
  induction s as [|c s IH]; cbn; [done|].
  by destruct (is_js_whitespace c) eqn:Hc.
Qed.

Lemma trimStart_id s : starts_clean s → trimStart s = s.
Proof. destruct s as [|c s]; cbn; [done|]. by intros ->. Qed.

Lemma trimEnd_clean s : starts_clean s → starts_clean (trimEnd s).
Proof.
  destruct s as [|c s]; cbn; [done|]. intros Hc.
  destruct (trimEnd s); [by rewrite Hc|done].
Qed.

Lemma trimEnd_idempotent s : trimEnd (trimEnd s) = trimEnd s.
Proof.
  induction s as [|c s IH]; cbn; [done|].
  destruct (trimEnd s) as [|k kept] eqn:Hk.
  - destruct (is_js_whitespace c) eqn:Hc; cbn; [done|by rewrite Hc].
  - change (trimEnd (c :: k :: kept))
      with (match trimEnd (k :: kept) with
            | [] => if is_js_whitespace c then [] else [c]
            | kept' => c :: kept'
            end).
    by rewrite IH.
Qed.

Lemma trim_idempotent s : trim (trim s) = trim s.
Proof.
  unfold trim. rewrite (trimStart_id (trimEnd (trimStart s))).
  - apply trimEnd_idempotent.
  - apply trimEnd_clean, trimStart_clean.
Qed.

(** The stored array only holds trimmed, non-empty, single-line entries. *)
Lemma feedsArray_entries feedsText :
  Forall (λ feed, (newline ∉ feed) ∧ trim feed = feed ∧ feed ≠ [])
    (feedsArray feedsText).
Proof.
  unfold feedsArray. apply Forall_forall. intros feed Hin.
  apply list_elem_of_In, filter_In in Hin as [Hin Hlen].
  apply list_elem_of_In, list_elem_of_fmap in Hin as (raw & -> & Hraw).
  split_and!.
  - pose proof (split_no_sep newline feedsText) as Hs.
    rewrite Forall_forall in Hs. specialize (Hs raw Hraw).
    assert (Forall (λ c, c ≠ newline) (trim raw)) as Ht.
    { apply trim_keeps, Forall_forall. intros c Hc ->. done. }
    intros Hn. rewrite Forall_forall in Ht. by apply (Ht newline).
  - apply trim_idempotent.
  - intros Hnil. rewrite Hnil in Hlen. done.
Qed.

Lemma feedsArray_fixpoint (feeds : list (list Z)) :
  Forall (λ feed, (newline ∉ feed) ∧ trim feed = feed ∧ feed ≠ []) feeds →
  feedsArray (join newline feeds) = feeds.
Proof.
  intros Hf. unfold feedsArray.
  destruct feeds as [|feed feeds]; [done|].
  rewrite split_join; [|done|by eapply Forall_impl; [done|]; intros ? (?&?&?)].
  induction Hf as [|f fs (Hn & Ht & Hne) _ IH]; [done|].
  cbn. rewrite Ht. destruct f; [done|]. cbn. by rewrite IH.
Qed.

(** C8: [saveOptions] stores the textarea lines, trimmed and without the
    empty ones; [restoreOptions] shows the stored list joined by
    newlines; saving what was restored stores the same list again. *)
Theorem save_restore_save (st : state) :
  storage (saveOptions st) !! "rssFeedList"
    = Some (List.filter (λ feed, 0 <? Z.of_nat (length feed))
              (trim <$> split newline (rssFeedsTextArea st)))
  ∧ rssFeedsTextArea (restoreOptions false (saveOptions st))
    = join newline (feedsArray (rssFeedsTextArea st))
  ∧ storage (saveOptions (restoreOptions false (saveOptions st)))
    = storage (saveOptions st).
Proof.
  unfold saveOptions at 1 2 4, restoreOptions.
  cbn [storage rssFeedsTextArea]. rewrite !lookup_insert_eq.
  split_and!; [done..|].
  unfold saveOptions. cbn [storage rssFeedsTextArea default].
  rewrite feedsArray_fixpoint by apply feedsArray_entries.
  by rewrite insert_insert_eq.
Qed.

Example feedsArray_example :
  feedsArray
    (js "  http://a/feed " ++ [10; 10; 9] ++ js "https://b/rss" ++ [10; 32])
  = [js "http://a/feed"; js "https://b/rss"].
Proof. reflexivity. Qed.

Example split_empty : split newline [] = [[]].
Proof. reflexivity. Qed.

End options.

(** ** The pipeline of the specification *)

Section pipeline.
Import Pipeline.


Lemma startsWith_spec (s pre : list Z) :
  startsWith s pre = true ↔ ∃ rest, s = pre ++ rest.
Proof.
  revert s. induction pre as [|p pre IH]; intros s; cbn.
  - split; [by exists s|done].
  - destruct s as [|c s]; cbn.
    + split; [done|]. by intros [rest ?].
    + rewrite andb_true_iff, IH, Z.eqb_eq. split.
      * intros [-> [rest ->]]. by exists rest.
      * intros [rest [= -> ->]]. eauto.
Qed.

Lemma includes_spec (s sub : list Z) :
  includes s sub = true ↔ ∃ before after, s = before ++ sub ++ after.
Proof.
  induction s as [|c s IH].
  - cbn. rewrite orb_false_r, startsWith_spec. split.
    + intros [rest ->]. by exists [], rest.
    + intros ([|] & after & Heq); [by exists after|done].
  - cbn [includes]. rewrite orb_true_iff, IH, startsWith_spec. split.
    + intros [[rest ->] | (before & after & ->)].
      * by exists [], rest.
      * by exists (c :: before), after.
    + intros ([|c' before] & after & Heq).
      * left. by exists after.
      * right. injection Heq as -> ->. by exists before, after.
Qed.

Lemma find_marker_Some mark template before after :
  find_marker mark template = Some (before, after) →
  template = before ++ mark ++ after.
Proof.
  revert before. induction template as [|c template IH]; intros before.
  - cbn. destruct (startsWith [] mark) eqn:Hs; [|done].
    intros [= <- <-]. apply startsWith_spec in Hs as [rest Hs].
    destruct mark; [|done]. by rewrite drop_0.
  - cbn [find_marker].
    destruct (startsWith (c :: template) mark) eqn:Hs.
    + intros [= <- <-]. apply startsWith_spec in Hs as [rest Hs].
      rewrite Hs at 1. by rewrite Hs, drop_app_length.
    + destruct (find_marker mark template) as [[b a]|]; [|done].
      intros [= <- <-]. by rewrite (IH b eq_refl).
Qed.

Lemma find_marker_includes mark template :
  is_Some (find_marker mark template) ↔ includes template mark = true.
Proof.
  induction template as [|c template IH].
  - cbn. rewrite orb_false_r. destruct (startsWith [] mark); [|by split; [intros []|]].
    split; [done|]. by eexists.
  - cbn [find_marker includes].
    destruct (startsWith (c :: template) mark); cbn [orb].
    + split; [done|]. by eexists.
    + rewrite <- IH. destruct (find_marker mark template) as [[b a]|].
      * split; by eexists.
      * split; by intros [].
Qed.

(** C6: a user-prompt template without the text placeholder makes prompt
    construction fail, the same way for every document; with the
    placeholder, the prompt is the template with the extracted text in
    its place. *)
Theorem prompt_needs_placeholder (doc : ExtractedDocument)
    (config : TemplateConfig) :
  if includes (user_template config) (marker config) then
    ∃ before after,
      user_template config = before ++ marker config ++ after
      ∧ build doc config
        = Ok {| system_prompt := system_instruction config;
                user_prompt := before ++ raw_text doc ++ after |}
  else
    build doc config
    = Failed ConfigurationError
        (js "prompt template lacks the text placeholder").
Proof.
  pose proof (find_marker_includes (marker config) (user_template config)) as Hi.
  unfold build.
  destruct (find_marker (marker config) (user_template config))
    as [[before after]|] eqn:Hf.
  - rewrite (proj1 Hi) by done. exists before, after.
    split; [by apply find_marker_Some|done].
  - destruct (includes (user_template config) (marker config)); [|done].
    by destruct (proj2 Hi eq_refl).
Qed.

Example build_with_placeholder :
  build {| raw_text := js "Article text."; source_url := js "https://a/b" |}
    Sample.template
  = Ok {| system_prompt := js "You summarize articles.";
          user_prompt := js "Summarize: Article text. Thanks." |}.
Proof. reflexivity. Qed.

Example build_without_placeholder :
  build {| raw_text := js "Article text."; source_url := js "https://a/b" |}
    {| system_instruction := js "You summarize articles.";
       user_template := js "Summarize the article.";
       marker := js "{text}" |}
  = Failed ConfigurationError (js "prompt template lacks the text placeholder").
Proof. reflexivity. Qed.

Ltac stage_cases :=
  repeat match goal with
    | H : _ ∨ _ |- _ => destruct H
    | H : ∃ _, _ |- _ => destruct H
    | H : _ ∧ _ |- _ => destruct H
    | H : ?x = _, H' : ?x = _ |- _ => rewrite H in H'
    | H : _ = _ |- _ => progress simplify_eq
    end.

(** A failing stage ends the run with its failure. *)
Lemma run_failure col config request kind message :
  stage_failure col config request kind message ↔
  ∃ stages, run col config request = (stages, Failed kind message).
Proof.
  unfold stage_failure, run. cbv zeta.
  destruct (extract col (source_address (request_source request)))
    as [doc|k1 m1];
    [destruct (build doc config) as [payload|k2 m2] eqn:Hb;
     [destruct (summarize col payload (request_provider request))
        as [summary|k3 m3] eqn:Hs;
      [destruct (synthesize col (summary_text summary))
         as [audio|k4 m4] eqn:Ha|]|]|].
  all: split; intros Hf; stage_cases; eauto 12.
Qed.

Lemma run_stages col config request :
  (run col config request).1 ∈
    [[Extracting]; [Extracting; Prompting];
     [Extracting; Prompting; Summarizing];
     [Extracting; Prompting; Summarizing; Synthesizing];
     [Extracting; Prompting; Summarizing; Synthesizing; Encoding]].
Proof.
  unfold run. repeat case_match; cbn; repeat constructor.
Qed.

Lemma run_success col config request stages summary audio :
  run col config request = (stages, Ok (summary, audio)) →
  summary_text summary ≠ [] ∧ bytes audio ≠ [].
Proof.
  unfold run, summarize, synthesize. intros Hr.
  repeat case_match; simplify_eq/=; done.
Qed.

Lemma b64encode_nonempty (audio : list Z) :
  audio ≠ [] → Base64.b64encode audio ≠ [].
Proof. by destruct audio as [|a [|b [|c rest]]]. Qed.

End pipeline.

(** ** Reasoning about handler runs *)

Section wp_rules.
Context {S A : Type}.
Implicit Types (s : S) (Q : outcome A → S → list event → Prop).

Lemma wp_ret a s Q : Q (Return a) s [] → wp (mret a) s Q.
Proof. done. Qed.

Lemma wp_throw e s Q : Q (Throw e) s [] → wp (throw e) s Q.
Proof. done. Qed.

Lemma wp_settle r s Q : Q r s [] → wp (settle r) s Q.
Proof. done. Qed.

Lemma wp_emit e s (Q : outcome () → S → list event → Prop) :
  Q (Return ()) s [e] → wp (emit e) s Q.
Proof. done. Qed.

Lemma wp_modify f s (Q : outcome () → S → list event → Prop) :
  Q (Return ()) (f s) [] → wp (modify f) s Q.
Proof. done. Qed.

Lemma wp_get s (Q : outcome S → S → list event → Prop) :
  Q (Return s) s [] → wp get s Q.
Proof. done. Qed.

Lemma wp_bind {B} (m : M S B) (f : B → M S A) s Q :
  wp m s (λ r s1 t1,
    match r with
    | Return b => wp (f b) s1 (λ r2 s2 t2, Q r2 s2 (t1 ++ t2))
    | Throw e => Q (Throw e) s1 t1
    end) →
  wp (m ≫= f) s Q.
Proof.
  unfold wp, mbind, M_bind, bind.
  destruct (m s) as [[[b|e] s1] t1]; cbn; [|done].
  by destruct (f b s1) as [[r2 s2] t2].
Qed.

Lemma wp_try_catch (m : M S A) (h : jsstring → M S A) s Q :
  wp m s (λ r s1 t1,
    match r with
    | Return a => Q (Return a) s1 t1
    | Throw e => wp (h e) s1 (λ r2 s2 t2, Q r2 s2 (t1 ++ t2))
    end) →
  wp (try_catch m h) s Q.
Proof.
  unfold wp, try_catch.
  destruct (m s) as [[[a|e] s1] t1]; cbn; [done|].
  by destruct (h e s1) as [[r2 s2] t2].
Qed.

Lemma wp_try_finally (m : M S A) (c : M S ()) s Q :
  wp m s (λ r s1 t1,
    wp c s1 (λ rc s2 t2,
      match rc with
      | Return _ => Q r s2 (t1 ++ t2)
      | Throw e => Q (Throw e) s2 (t1 ++ t2)
      end)) →
  wp (try_finally m c) s Q.
Proof.
  unfold wp, try_finally.
  destruct (m s) as [[r s1] t1]; cbn.
  by destruct (c s1) as [[[[]|e] s2] t2].
Qed.

Lemma wp_mono (m : M S A) s Q Q' :
  wp m s Q → (∀ r s' t, Q r s' t → Q' r s' t) → wp m s Q'.
Proof. unfold wp. auto. Qed.

Lemma wp_elim (m : M S A) s Q :
  wp m s Q → ∃ r s' t, m s = (r, s', t) ∧ Q r s' t.
Proof. unfold wp. destruct (m s) as [[r s'] t]. eauto. Qed.
End wp_rules.

(** Postconditions are named before a rule is applied, so that the two
    continuations of a bind share one copy of what follows. *)
Ltac wp_name :=
  lazymatch goal with
  | |- wp _ _ ?P =>
      tryif is_var P then idtac else (let Q := fresh "Q" in set (Q := P))
  | _ => idtac
  end.

Ltac wp_step :=
  wp_name;
  lazymatch goal with
  | |- wp (_ ≫= _) _ _ => apply wp_bind
  | |- wp (mret _) _ _ => apply wp_ret
  | |- wp (throw _) _ _ => apply wp_throw
  | |- wp (settle _) _ _ => apply wp_settle
  | |- wp (emit _) _ _ => apply wp_emit
  | |- wp (modify _) _ _ => apply wp_modify
  | |- wp get _ _ => apply wp_get
  | |- wp (try_catch _ _) _ _ => apply wp_try_catch
  | |- wp (try_finally _ _) _ _ => apply wp_try_finally
  | |- wp (updateStatus _) _ _ => apply wp_modify
  | |- wp (if negb ?a || negb ?b then _ else _) _ _ =>
      destruct a eqn:?, b eqn:?; simpl negb; simpl orb
  | |- wp (if ?a || ?b then _ else _) _ _ =>
      destruct a eqn:?; [|destruct b eqn:?]; simpl orb
  | |- wp (if ?a && ?b then _ else _) _ _ =>
      destruct a eqn:?; [destruct b eqn:?|]; simpl andb
  | |- wp (if negb ?b then _ else _) _ _ => destruct b eqn:?; simpl negb
  | |- wp (if ?b then _ else _) _ _ => destruct b eqn:?
  | |- wp (match ?x with _ => _ end) _ _ => destruct x eqn:?
  | |- match ?x with _ => _ end => destruct x eqn:?
  | |- ?Q _ _ _ => is_var Q; unfold Q
  end; lazy beta iota.

Ltac wp_run := repeat wp_step.

Ltac wp_done :=
  repeat match goal with Q := _ |- _ => clear Q end; cbn [app].

Ltac use_eqs :=
  repeat match goal with
    | H : ?x = _ |- context [?x] => rewrite !H
    end.

Ltac after_request_leaf :=
  split; [reflexivity | cbn; repeat constructor].

Ltac simpl_fetches :=
  repeat match goal with
    | |- context [fetch_bodies (Fetch ?u ?b :: ?t)] =>
        change (fetch_bodies (Fetch u b :: t)) with (b :: fetch_bodies t)
    | |- context [fetch_bodies (?e :: ?t)] =>
        change (fetch_bodies (e :: t)) with (fetch_bodies t)
    end.

Section handlers.

Lemma wp_resetUI p Q :
  Q (Return ())
    (set_audioBuffer None (set_replayDisabled true (set_display false
       (set_summaryContainer []
          (set_statusDiv (js "Select source and click Summarize.") p))))) [] →
  wp Popup.resetUI p Q.
Proof. done. Qed.

Ltac answered_leaf :=
  unfold answered, usable, rejection_message, server_message, field; use_eqs;
  lazy beta iota zeta; use_eqs; cbn [andb negb truthy]; use_eqs;
  try (split_and!; try reflexivity; constructor; reflexivity).

(** The source-selector popup: one request, then either the summary with
    its audio or an error and a cleared page. *)
Lemma fetchSummaryAndPlay_spec env body p :
  wp (Popup.fetchSummaryAndPlay env body) p (λ r p' t',
    ∃ t, r = Return () ∧ t' = Fetch SERVER_URL body :: t
         ∧ after_request t ∧ summarizeDisabled p' = false
         ∧ answered env server_message None p' t).
Proof.
  unfold Popup.fetchSummaryAndPlay, response_json, get_field, decodeAudioData,
    Popup.playAudio, Popup.showSummaryArea.
  wp_run; try apply wp_resetUI; wp_run; wp_done.
  all: eexists; split; [reflexivity|]; split; [reflexivity|];
    split; [after_request_leaf|]; split; [reflexivity|].
  all: answered_leaf.
Qed.

(** The popup that summarizes on opening. *)
Lemma onTabs_spec env tabs p :
  wp (PopupOnOpen.onTabs env tabs) p (λ r p' t',
    r = Return ()
    ∧ match tabs !! 0%nat ≫= tab_url with
      | Some (c :: url) =>
          ∃ t, t' = Fetch SERVER_URL (url_request (c :: url)) :: t
               ∧ after_request t
               ∧ answered env PopupOnOpen.http_error (audioBuffer p) p' t
      | _ =>
          p' = set_statusDiv (js "Error: Could not get current tab URL.") p
          ∧ t' = []
      end).
Proof.
  unfold PopupOnOpen.onTabs. cbv zeta.
  destruct (tabs !! 0%nat) as [[id [[|c url]|]]|];
    cbn [mbind option_bind tab_url url_missing url_text default]; try done.
  unfold response_json, get_field, decodeAudioData, PopupOnOpen.playAudio.
  wp_run; wp_done.
  all: split; [reflexivity|]; eexists; split; [reflexivity|];
    split; [after_request_leaf|].
  all: answered_leaf.
Qed.

Lemma onSummarizeClick_spec env selectedValue p :
  wp (Popup.onSummarizeClick env selectedValue) p (λ r p' t',
    r = Return ()
    ∧ if bool_decide (selectedValue = js "current_tab") then
        match tabs_query env with
        | Throw e => t' = [TabsQuery] ∧ statusDiv p' = js "Error: " ++ e
        | Return tabs =>
            if no_summarizable_tab tabs then
              t' = [TabsQuery]
              ∧ statusDiv p' = js "Error: Invalid URL for current tab."
            else
              ∃ t, t' = TabsQuery
                        :: Fetch SERVER_URL
                             (url_request (url_text (tabs !! 0%nat ≫= tab_url)))
                        :: t
                   ∧ after_request t
                   ∧ answered env server_message None p' t
        end
      else
        ∃ t, t' = Fetch SERVER_URL (rss_request selectedValue) :: t
             ∧ after_request t
             ∧ answered env server_message None p' t).
Proof.
  unfold Popup.onSummarizeClick. cbv zeta.
  apply wp_bind, wp_resetUI.
  destruct (bool_decide (selectedValue = js "current_tab")).
  - wp_run.
    all: try (eapply wp_mono; [apply fetchSummaryAndPlay_spec|];
              intros r p' t' (t & -> & -> & Ht & _ & Ha); wp_run).
    all: wp_done; unfold no_summarizable_tab; use_eqs;
      (split; [reflexivity|]); try (split; reflexivity).
    eauto.
  - eapply wp_mono; [apply fetchSummaryAndPlay_spec|].
    intros r p' t' (t & -> & -> & Ht & _ & Ha). eauto 10.
Qed.

Lemma background_onClicked_spec env t s :
  wp (Background.onClicked env t) s (λ r s' t',
    r = Return ()
    ∧ if url_missing (tab_url t) || not_http (url_text (tab_url t)) then
        s' = s
        ∧ t' = [Notification Background.title_cannot_summarize
                  Background.message_invalid_url]
      else
        ∃ tr, t' = BadgeText (js "...") :: BadgeBackgroundColor (js "#FFA500")
                   :: Fetch SERVER_URL (url_request (url_text (tab_url t)))
                   :: tr
              ∧ after_request tr
              ∧ last tr = Some (BadgeText [])).
Proof.
  unfold Background.onClicked, Background.base64ToArrayBuffer,
    Background.playAudio, response_json, get_field.
  wp_run; wp_done; (split; [reflexivity|]); use_eqs; cbn [orb]; try done.
  all: eexists; split; [reflexivity|];
    split; [after_request_leaf|reflexivity].
Qed.

(** Consequences of the handler specifications, in the form the
    statements below use. *)

Lemma fetchSummaryAndPlay_run env body p :
  ∃ p' t,
    Popup.fetchSummaryAndPlay env body p
      = (Return (), p', Fetch SERVER_URL body :: t)
    ∧ after_request t ∧ answered env server_message None p' t.
Proof.
  destruct (wp_elim _ _ _ (fetchSummaryAndPlay_spec env body p))
    as (r & p' & t' & Hrun & t & -> & -> & Ht & _ & Ha).
  eauto.
Qed.

Lemma onTabs_run env tabs p c url :
  tabs !! 0%nat ≫= tab_url = Some (c :: url) →
  ∃ p' t,
    PopupOnOpen.onTabs env tabs p
      = (Return (), p', Fetch SERVER_URL (url_request (c :: url)) :: t)
    ∧ after_request t
    ∧ answered env PopupOnOpen.http_error (audioBuffer p) p' t.
Proof.
  intros Hurl.
  destruct (wp_elim _ _ _ (onTabs_spec env tabs p))
    as (r & p' & t' & Hrun & -> & Hpost).
  rewrite Hurl in Hpost. destruct Hpost as (t & -> & Ht & Ha). eauto.
Qed.

Lemma onTabs_no_url env tabs p :
  match tabs !! 0%nat ≫= tab_url with
  | Some (_ :: _) => False
  | _ => True
  end →
  PopupOnOpen.onTabs env tabs p
  = (Return (), set_statusDiv (js "Error: Could not get current tab URL.") p,
     []).
Proof.
  intros Hurl.
  destruct (wp_elim _ _ _ (onTabs_spec env tabs p))
    as (r & p' & t' & Hrun & -> & Hpost).
  by destruct (tabs !! 0%nat ≫= tab_url) as [[|c url]|];
    try done; destruct Hpost as [-> ->].
Qed.

Lemma usable_false r :
  usable r = false ↔
  ok r = false ∨ truthy (field r "error") = true
  ∨ truthy (field r "summary_text") = false
  ∨ truthy (field r "audio_base64") = false.
Proof.
  unfold usable.
  destruct (ok r), (truthy (field r "error")),
    (truthy (field r "summary_text")), (truthy (field r "audio_base64"));
    cbn; intuition congruence.
Qed.

Lemma answered_rejected env unexpected before p' t r :
  fetch_result env = Return r → usable r = false →
  answered env unexpected before p' t →
  t = [] ∧ failed (rejection_message env unexpected r) p'
  ∧ audioBuffer p' = before.
Proof. unfold answered. by intros -> ->. Qed.

(** All or nothing: once answered, the popup either shows the summary
    with replayable audio, or an error and no summary. *)
Lemma answered_all_or_nothing env unexpected before p' t :
  answered env unexpected before p' t →
  (∃ summary buffer, succeeded summary buffer p')
  ∨ (∃ message, failed message p' ∧ audioBuffer p' = before).
Proof.
  unfold answered. intros Ha. repeat case_match; destruct_and?; eauto.
Qed.

Lemma lookup_url_request url :
  url_request url !! "url" = Some (VStr url)
  ∧ url_request url !! "rss_url" = None
  ∧ url_request url !! "summarizer_choice" = Some (VStr (js "gemini")).
Proof. done. Qed.

Lemma lookup_rss_request url :
  rss_request url !! "url" = None
  ∧ rss_request url !! "rss_url" = Some (VStr url)
  ∧ rss_request url !! "summarizer_choice" = Some (VStr (js "gemini")).
Proof. done. Qed.

Lemma background_fetches env t s :
  fetch_bodies (Background.onClicked env t s).2
  = if url_missing (tab_url t) || not_http (url_text (tab_url t)) then []
    else [url_request (url_text (tab_url t))].
Proof.
  destruct (wp_elim _ _ _ (background_onClicked_spec env t s))
    as (r & s' & t' & Hrun & -> & Hpost). rewrite Hrun. cbn [snd].
  destruct (url_missing (tab_url t) || not_http (url_text (tab_url t))).
  - by destruct Hpost as [-> ->].
  - destruct Hpost as (tr & -> & [Htr _] & _). simpl_fetches. by rewrite Htr.
Qed.

Lemma summarize_fetches env selectedValue p :
  fetch_bodies (Popup.onSummarizeClick env selectedValue p).2
  = if bool_decide (selectedValue = js "current_tab") then
      match tabs_query env with
      | Throw _ => []
      | Return tabs =>
          if no_summarizable_tab tabs then []
          else [url_request (url_text (tabs !! 0%nat ≫= tab_url))]
      end
    else [rss_request selectedValue].
Proof.
  destruct (wp_elim _ _ _ (onSummarizeClick_spec env selectedValue p))
    as (r & p' & t' & Hrun & -> & Hpost). rewrite Hrun. cbn [snd].
  destruct (bool_decide (selectedValue = js "current_tab")).
  - destruct (tabs_query env) as [tabs|e].
    + destruct (no_summarizable_tab tabs).
      * by destruct Hpost as [-> _].
      * destruct Hpost as (t & -> & [Ht _] & _). simpl_fetches.
        by rewrite Ht.
    + by destruct Hpost as [-> _].
  - destruct Hpost as (t & -> & [Ht _] & _). simpl_fetches. by rewrite Ht.
Qed.

Lemma onOpen_run env p :
  PopupOnOpen.onOpen env p
  = match tabs_query env with
    | Return tabs =>
        let '(r, p', t) := PopupOnOpen.onTabs env tabs p in
        (r, p', TabsQuery :: t)
    | Throw e => (Throw (type_error env), p, [TabsQuery])
    end.
Proof.
  unfold PopupOnOpen.onOpen. unfold_m.
  destruct (tabs_query env) as [tabs|e]; [|done].
  by destruct (PopupOnOpen.onTabs env tabs p) as [[r p'] t].
Qed.

Lemma popup_open_fetches env p :
  fetch_bodies (PopupOnOpen.onOpen env p).2
  = match tabs_query env with
    | Throw _ => []
    | Return tabs =>
        match tabs !! 0%nat ≫= tab_url with
        | Some (c :: url) => [url_request (c :: url)]
        | _ => []
        end
    end.
Proof.
  rewrite onOpen_run.
  destruct (tabs_query env) as [tabs|e]; [|done].
  destruct (tabs !! 0%nat ≫= tab_url) as [[|c url]|] eqn:Hurl.
  - by rewrite onTabs_no_url by by rewrite Hurl.
  - destruct (onTabs_run env tabs p c url Hurl)
      as (p' & t & -> & [Ht _] & _).
    cbn [snd]. simpl_fetches. by rewrite Ht.
  - by rewrite onTabs_no_url by by rewrite Hurl.
Qed.

Lemma replay_fetches env p :
  fetch_bodies (Popup.onReplayClick env p).2 = []
  ∧ fetch_bodies (PopupOnOpen.onReplayClick env p).2 = [].
Proof.
  unfold Popup.onReplayClick, PopupOnOpen.onReplayClick, Popup.playAudio,
    PopupOnOpen.playAudio, updateStatus. unfold_m.
  by destruct (audioBuffer p), (existing_context_state env),
    (start_result env).
Qed.

(** Every handler run sends nothing, or one request naming a page
    address, or one request naming a feed. *)
Lemma handler_run_fetches t :
  handler_run t →
  fetch_bodies t = []
  ∨ ∃ url, fetch_bodies t = [url_request url]
           ∨ fetch_bodies t = [rss_request url].
Proof.
  destruct 1 as [t0|env t0 s|env p|env p|env selectedValue p|env p].
  - by left.
  - rewrite background_fetches. case_match; eauto.
  - rewrite popup_open_fetches. repeat case_match; eauto.
  - left. apply replay_fetches.
  - rewrite summarize_fetches. repeat case_match; eauto.
  - left. apply replay_fetches.
Qed.

Lemma steps_cons e t :
  steps (e :: t)
  = match step_of e with
    | Some s => s :: steps t
    | None => steps t
    end.
Proof. unfold steps. cbn. by destruct (step_of e). Qed.

Ltac steps_cases Hs :=
  rewrite ?steps_cons; cbn [step_of];
  repeat (apply elem_of_cons in Hs as [Hs|Hs];
          [rewrite Hs; by apply (bool_decide_unpack _)|]);
  by apply elem_of_nil in Hs.

(** No handler run takes any of its steps twice. *)
Lemma handler_run_steps t : handler_run t → NoDup (steps t).
Proof.
  destruct 1 as [t0|env t0 s|env p|env p|env selectedValue p|env p].
  - apply NoDup_nil_2.
  - destruct (wp_elim _ _ _ (background_onClicked_spec env t0 s))
      as (r & s' & t' & -> & -> & Hpost). cbn [snd].
    destruct (url_missing (tab_url t0) || not_http (url_text (tab_url t0))).
    + destruct Hpost as [-> ->]. apply NoDup_nil_2.
    + destruct Hpost as (tr & -> & [_ Hs] & _). steps_cases Hs.
  - rewrite onOpen_run. destruct (tabs_query env) as [tabs|e].
    + destruct (wp_elim _ _ _ (onTabs_spec env tabs p))
        as (r & p' & t' & -> & -> & Hpost). cbn [snd].
      destruct (tabs !! 0%nat ≫= tab_url) as [[|c url]|].
      * destruct Hpost as [-> ->]. by apply (bool_decide_unpack _).
      * destruct Hpost as (t & -> & [_ Hs] & _). steps_cases Hs.
      * destruct Hpost as [-> ->]. by apply (bool_decide_unpack _).
    + by apply (bool_decide_unpack _).
  - unfold PopupOnOpen.onReplayClick, PopupOnOpen.playAudio, updateStatus.
    unfold_m.
    destruct (audioBuffer p), (start_result env);
      by apply (bool_decide_unpack _).
  - destruct (wp_elim _ _ _ (onSummarizeClick_spec env selectedValue p))
      as (r & p' & t' & -> & -> & Hpost). cbn [snd].
    destruct (bool_decide (selectedValue = js "current_tab")).
    + destruct (tabs_query env) as [tabs|e].
      * destruct (no_summarizable_tab tabs).
        -- destruct Hpost as [-> _]. by apply (bool_decide_unpack _).
        -- destruct Hpost as (t & -> & [_ Hs] & _). steps_cases Hs.
      * destruct Hpost as [-> _]. by apply (bool_decide_unpack _).
    + destruct Hpost as (t & -> & [_ Hs] & _). steps_cases Hs.
  - unfold Popup.onReplayClick, Popup.playAudio, updateStatus. unfold_m.
    destruct (audioBuffer p), (existing_context_state env),
      (start_result env); by apply (bool_decide_unpack _).
Qed.

Lemma not_http_false url :
  not_http url = false ↔
  startsWith url (js "http:") = true ∨ startsWith url (js "https:") = true.
Proof.
  unfold not_http.
  destruct (startsWith url (js "http:")), (startsWith url (js "https:"));
    cbn; intuition congruence.
Qed.

End handlers.

(** ** What the handlers send, and what they show on failure *)

(** C1, as amended: a tab address that is missing or starts with neither
    [http:] nor [https:] is rejected before any request is made, by the
    toolbar listener with a notification and by the popup's current-tab
    branch with an error status; on these two paths a request is only
    sent for an address starting with [http:] or [https:]. *)
Theorem tab_url_checked_before_fetch (env : environment) (t : tab)
    (s : Background.state) (p : page) :
  (if url_missing (tab_url t) || not_http (url_text (tab_url t)) then
     Background.onClicked env t s
     = (Return (), s,
        [Notification Background.title_cannot_summarize
           Background.message_invalid_url])
   else
     fetch_bodies (Background.onClicked env t s).2
     = [url_request (url_text (tab_url t))])
  ∧ match tabs_query env with
    | Throw e =>
        ∃ p', Popup.onSummarizeClick env (js "current_tab") p
              = (Return (), p', [TabsQuery])
              ∧ statusDiv p' = js "Error: " ++ e
    | Return tabs =>
        if no_summarizable_tab tabs then
          ∃ p', Popup.onSummarizeClick env (js "current_tab") p
                = (Return (), p', [TabsQuery])
                ∧ statusDiv p' = js "Error: Invalid URL for current tab."
        else
          fetch_bodies (Popup.onSummarizeClick env (js "current_tab") p).2
          = [url_request (url_text (tabs !! 0%nat ≫= tab_url))]
    end
  ∧ ∀ body,
      body ∈ fetch_bodies (Background.onClicked env t s).2
             ++ fetch_bodies (Popup.onSummarizeClick env (js "current_tab") p).2 →
      ∃ url, body = url_request url
             ∧ (startsWith url (js "http:") = true
                ∨ startsWith url (js "https:") = true).
Proof.
  split_and!.
  - destruct (wp_elim _ _ _ (background_onClicked_spec env t s))
      as (r & s' & t' & Hrun & -> & Hpost).
    pose proof (background_fetches env t s) as Hf.
    destruct (url_missing (tab_url t) || not_http (url_text (tab_url t)));
      [|done].
    by destruct Hpost as [-> ->].
  - destruct (wp_elim _ _ _ (onSummarizeClick_spec env (js "current_tab") p))
      as (r & p' & t' & Hrun & -> & Hpost).
    pose proof (summarize_fetches env (js "current_tab") p) as Hf.
    rewrite bool_decide_eq_true_2 in Hpost, Hf by done.
    destruct (tabs_query env) as [tabs|e].
    + destruct (no_summarizable_tab tabs); [|done].
      destruct Hpost as [-> Hs]. eauto.
    + destruct Hpost as [-> Hs]. eauto.
  - intros body. rewrite background_fetches, summarize_fetches.
    rewrite bool_decide_eq_true_2 by done.
    intros [Hb|Hb]%elem_of_app.
    + destruct (url_missing (tab_url t)) eqn:Hm;
        [by apply elem_of_nil in Hb|].
      destruct (not_http (url_text (tab_url t))) eqn:Hh;
        [by apply elem_of_nil in Hb|].
      apply list_elem_of_singleton in Hb as ->.
      eexists. split; [done|]. by apply not_http_false.
    + destruct (tabs_query env) as [tabs|e]; [|by apply elem_of_nil in Hb].
      unfold no_summarizable_tab in Hb.
      destruct (tabs !! 0%nat) as [first|]; [|by apply elem_of_nil in Hb].
      destruct (url_missing (tab_url first)) eqn:Hm;
        [by apply elem_of_nil in Hb|].
      destruct (not_http (url_text (tab_url first))) eqn:Hh;
        [by apply elem_of_nil in Hb|].
      apply list_elem_of_singleton in Hb as ->.
      eexists. split; [done|]. by apply not_http_false.
Qed.

Lemma tab_url_checked_before_fetch_witness :
  ∃ url, url_request (js "https://example.com/article") = url_request url
         ∧ (startsWith url (js "http:") = true
            ∨ startsWith url (js "https:") = true).
Proof.
  apply (proj2 (proj2 (tab_url_checked_before_fetch
                         (Sample.offline [Sample.article]) Sample.article
                         Sample.fresh_background Sample.fresh_page))).
  vm_compute. apply list_elem_of_here.
Defined.

(** C1 as stated does not hold for feeds: the feed branch of the
    Summarize button sends the selected value whatever its scheme: a feed saved on the options page under an
    [ftp:] address is offered by the selector and requested. *)
Lemma rss_feed_scheme_is_not_checked :
  not_http Sample.ftp_feed = true
  ∧ Popup.loadRssFeeds (Options.feedsArray Sample.ftp_feed) = [Sample.ftp_feed]
  ∧ (Popup.onSummarizeClick (Sample.offline []) Sample.ftp_feed
       Sample.fresh_page).2
    = [Fetch SERVER_URL (rss_request Sample.ftp_feed)].
Proof. split_and!; vm_compute; reflexivity. Qed.

(** C4: every request a handler sends names exactly one source, a page
    address under [url] or a feed under [rss_url], never both and never
    neither, together with a provider identifier that is a string. *)
Theorem request_names_one_source (t : list event) (body : gmap string jsval) :
  handler_run t → body ∈ fetch_bodies t →
  (∃ source,
      (body !! "url" = Some (VStr source) ∧ body !! "rss_url" = None)
      ∨ (body !! "url" = None ∧ body !! "rss_url" = Some (VStr source)))
  ∧ ∃ id, body !! "summarizer_choice" = Some (VStr id).
Proof.
  intros Hrun Hbody.
  destruct (handler_run_fetches t Hrun) as [Hf|[url [Hf|Hf]]];
    rewrite Hf in Hbody.
  - by apply elem_of_nil in Hbody.
  - apply list_elem_of_singleton in Hbody as ->.
    destruct (lookup_url_request url) as (? & ? & ?). eauto 10.
  - apply list_elem_of_singleton in Hbody as ->.
    destruct (lookup_rss_request url) as (? & ? & ?). eauto 10.
Qed.

Lemma request_names_one_source_witness :
  (∃ source,
      (rss_request Sample.ftp_feed !! "url" = Some (VStr source)
       ∧ rss_request Sample.ftp_feed !! "rss_url" = None)
      ∨ (rss_request Sample.ftp_feed !! "url" = None
         ∧ rss_request Sample.ftp_feed !! "rss_url" = Some (VStr source)))
  ∧ ∃ id, rss_request Sample.ftp_feed !! "summarizer_choice" = Some (VStr id).
Proof.
  apply (request_names_one_source
           (Popup.onSummarizeClick (Sample.offline []) Sample.ftp_feed
              Sample.fresh_page).2).
  - apply run_summarize.
  - vm_compute. apply list_elem_of_here.
Defined.

(** C10: every request a handler sends carries the provider identifier
    ["gemini"], whichever source is selected. *)
Theorem provider_is_always_gemini (t : list event) (body : gmap string jsval) :
  handler_run t → body ∈ fetch_bodies t →
  body !! "summarizer_choice" = Some (VStr (js "gemini")).
Proof.
  intros Hrun Hbody.
  destruct (handler_run_fetches t Hrun) as [Hf|[url [Hf|Hf]]];
    rewrite Hf in Hbody.
  - by apply elem_of_nil in Hbody.
  - apply list_elem_of_singleton in Hbody as ->. apply lookup_url_request.
  - apply list_elem_of_singleton in Hbody as ->. apply lookup_rss_request.
Qed.

Lemma provider_is_always_gemini_witness :
  url_request (js "https://example.com/article") !! "summarizer_choice"
  = Some (VStr (js "gemini")).
Proof.
  apply (provider_is_always_gemini
           (Background.onClicked (Sample.offline []) Sample.article
              Sample.fresh_background).2).
  - apply run_toolbar.
  - vm_compute. apply list_elem_of_here.
Defined.

(** C7, as amended: no handler run sends more than one request and no
    failure leads to a second attempt: [fetchSummaryAndPlay] sends
    exactly one, a click sends one when its source is accepted and none
    when it is rejected; a handler run takes each of its steps (tab
    query, request, audio decoding, start of playback) at most once, and
    the run of the server pipeline enters each stage at most once. *)
Theorem at_most_one_fetch_per_click :
  (∀ env body p,
     fetch_bodies (Popup.fetchSummaryAndPlay env body p).2 = [body])
  ∧ (∀ env t s,
       length (fetch_bodies (Background.onClicked env t s).2)
       = if url_missing (tab_url t) || not_http (url_text (tab_url t))
         then 0%nat else 1%nat)
  ∧ (∀ env selectedValue p,
       length (fetch_bodies (Popup.onSummarizeClick env selectedValue p).2)
       = if bool_decide (selectedValue = js "current_tab") then
           match tabs_query env with
           | Throw _ => 0%nat
           | Return tabs => if no_summarizable_tab tabs then 0%nat else 1%nat
           end
         else 1%nat)
  ∧ (∀ env p,
       (length (fetch_bodies (PopupOnOpen.onOpen env p).2) ≤ 1)%nat)
  ∧ (∀ t, handler_run t → NoDup (steps t))
  ∧ (∀ col config request, NoDup (Pipeline.run col config request).1).
Proof.
  split_and!.
  - intros env body p.
    destruct (fetchSummaryAndPlay_run env body p)
      as (p' & t & -> & [Ht _] & _).
    cbn [snd]. simpl_fetches. by rewrite Ht.
  - intros env t s. rewrite background_fetches. by case_match.
  - intros env selectedValue p. rewrite summarize_fetches.
    by repeat case_match.
  - intros env p. rewrite popup_open_fetches. repeat case_match; cbn; lia.
  - apply handler_run_steps.
  - intros col config request.
    pose proof (run_stages col config request) as Hs.
    repeat (apply elem_of_cons in Hs as [Hs|Hs];
            [rewrite Hs; by apply (bool_decide_unpack _)|]).
    by apply elem_of_nil in Hs.
Qed.

Lemma at_most_one_fetch_per_click_witness :
  NoDup (steps (Popup.onSummarizeClick
                  (Sample.online [Sample.article] Sample.complete)
                  (js "current_tab") Sample.fresh_page).2).
Proof.
  apply (proj1 (proj2 (proj2 (proj2 (proj2 at_most_one_fetch_per_click))))).
  apply run_summarize.
Defined.

(** C7 as stated asks for exactly one request per click: a click on a
    page the extension cannot summarize sends none. *)
Lemma rejected_click_fetches_nothing :
  length (fetch_bodies
            (Background.onClicked (Sample.offline []) Sample.internal_page
               Sample.fresh_background).2) = 0%nat
  ∧ length (fetch_bodies
              (Popup.onSummarizeClick (Sample.offline [Sample.internal_page])
                 (js "current_tab") Sample.fresh_page).2) = 0%nat.
Proof. split; vm_compute; reflexivity. Qed.

(** C5: a successful run of the pipeline answers with a non-empty
    [summary_text] and a non-empty [audio_base64]; the popups treat an
    answer in which either is missing or empty as a failure, and a
    complete one as a success. *)
Theorem success_carries_summary_and_audio :
  (∀ col config request stages summary audio,
     Pipeline.run col config request = (stages, Pipeline.Ok (summary, audio)) →
     ∃ text encoded,
       Pipeline.respond (Pipeline.Ok (summary, audio)) !! "summary_text"
         = Some (VStr text)
       ∧ text ≠ []
       ∧ Pipeline.respond (Pipeline.Ok (summary, audio)) !! "audio_base64"
         = Some (VStr encoded)
       ∧ encoded ≠ [])
  ∧ (∀ env body p r,
       fetch_result env = Return r →
       truthy (field r "summary_text") = false
       ∨ truthy (field r "audio_base64") = false →
       ∃ p', Popup.fetchSummaryAndPlay env body p
             = (Return (), p', [Fetch SERVER_URL body])
             ∧ failed (rejection_message env server_message r) p'
             ∧ audioBuffer p' = None)
  ∧ (∀ env tabs p r c url,
       tabs !! 0%nat ≫= tab_url = Some (c :: url) →
       fetch_result env = Return r →
       truthy (field r "summary_text") = false
       ∨ truthy (field r "audio_base64") = false →
       ∃ p', PopupOnOpen.onTabs env tabs p
             = (Return (), p', [Fetch SERVER_URL (url_request (c :: url))])
             ∧ failed (rejection_message env PopupOnOpen.http_error r) p'
             ∧ audioBuffer p' = audioBuffer p)
  ∧ (∀ env body p r binaryString buffer,
       fetch_result env = Return r → usable r = true →
       Base64.atob (to_js_string (field r "audio_base64")) = Some binaryString →
       decodeAudioData_result env (Base64.fill_bytes binaryString)
         = Return buffer →
       ∃ p' t, Popup.fetchSummaryAndPlay env body p
               = (Return (), p',
                  Fetch SERVER_URL body
                  :: DecodeAudioData (Base64.fill_bytes binaryString) :: t)
               ∧ succeeded (to_js_string (field r "summary_text")) buffer p').
Proof.
  split_and!.
  - intros col config request stages [text provider] [audio] Hrun.
    apply run_success in Hrun as [Htext Haudio]. cbn in Htext, Haudio.
    exists text, (Base64.b64encode audio). split_and!; try done.
    by apply b64encode_nonempty.
  - intros env body p r Hr Hmissing.
    destruct (fetchSummaryAndPlay_run env body p) as (p' & t & Hrun & _ & Ha).
    eapply answered_rejected in Ha as (-> & Hf & Hb); [|done|].
    + eauto.
    + apply usable_false. tauto.
  - intros env tabs p r c url Hurl Hr Hmissing.
    destruct (onTabs_run env tabs p c url Hurl) as (p' & t & Hrun & _ & Ha).
    eapply answered_rejected in Ha as (-> & Hf & Hb); [|done|].
    + eauto.
    + apply usable_false. tauto.
  - intros env body p r binaryString buffer Hr Hu Hb Hd.
    destruct (fetchSummaryAndPlay_run env body p) as (p' & t & Hrun & _ & Ha).
    unfold answered in Ha. rewrite Hr, Hu, Hb in Ha. cbv zeta in Ha.
    rewrite Hd in Ha. destruct Ha as [Hhead Hs].
    destruct t as [|e t]; simplify_eq/=. eauto.
Qed.

Lemma success_carries_summary_and_audio_witness :
  (∃ text encoded,
      Pipeline.respond
        (Pipeline.Ok ({| Pipeline.summary_text := js "A summary.";
                         Pipeline.provider_id := Pipeline.primary |},
                      {| Pipeline.bytes := [82; 73; 70; 70] |}))
        !! "summary_text" = Some (VStr text)
      ∧ text ≠ []
      ∧ Pipeline.respond
          (Pipeline.Ok ({| Pipeline.summary_text := js "A summary.";
                           Pipeline.provider_id := Pipeline.primary |},
                        {| Pipeline.bytes := [82; 73; 70; 70] |}))
          !! "audio_base64" = Some (VStr encoded)
      ∧ encoded ≠ [])
  ∧ (∃ p', Popup.fetchSummaryAndPlay (Sample.online [] Sample.summary_only)
             base_request Sample.fresh_page
           = (Return (), p', [Fetch SERVER_URL base_request])
           ∧ failed (rejection_message (Sample.online [] Sample.summary_only)
                       server_message Sample.summary_only) p'
           ∧ audioBuffer p' = None)
  ∧ (∃ p', PopupOnOpen.onTabs (Sample.online [] Sample.summary_only)
             [Sample.article] Sample.fresh_page
           = (Return (), p',
              [Fetch SERVER_URL (url_request (js "https://example.com/article"))])
           ∧ failed (rejection_message (Sample.online [] Sample.summary_only)
                       PopupOnOpen.http_error Sample.summary_only) p'
           ∧ audioBuffer p' = audioBuffer Sample.fresh_page)
  ∧ (∃ p' t, Popup.fetchSummaryAndPlay (Sample.online [] Sample.complete)
               base_request Sample.fresh_page
             = (Return (), p',
                Fetch SERVER_URL base_request
                :: DecodeAudioData (Base64.fill_bytes [82; 73; 70; 70]) :: t)
             ∧ succeeded (to_js_string (field Sample.complete "summary_text"))
                 (Decoded [82; 73; 70; 70]) p').
Proof.
  destruct success_carries_summary_and_audio as (H1 & H2 & H3 & H4).
  split_and!.
  - apply (H1 (Sample.services Sample.speech_up) Sample.template
             Sample.request
             [Pipeline.Extracting; Pipeline.Prompting; Pipeline.Summarizing;
              Pipeline.Synthesizing; Pipeline.Encoding]).
    reflexivity.
  - apply (H2 (Sample.online [] Sample.summary_only)); [reflexivity|].
    right. reflexivity.
  - apply (H3 (Sample.online [] Sample.summary_only) [Sample.article]);
      [reflexivity|reflexivity|]. right. reflexivity.
  - apply (H4 (Sample.online [] Sample.complete)); reflexivity.
Defined.

(** C3: a failing stage ends the pipeline run with one error and an
    answer that holds nothing but that error, in particular no
    [summary_text] when synthesis fails after the summary was produced;
    the popups end either with the summary and its audio or with an
    error, no summary displayed and replay disabled, and any answer that
    is not a complete success leads to the latter. *)
Theorem failure_leaves_nothing_partial :
  (∀ col config request kind message,
     Pipeline.stage_failure col config request kind message →
     ∃ stages,
       Pipeline.run col config request = (stages, Pipeline.Failed kind message)
       ∧ Pipeline.respond (Pipeline.Failed kind message)
         = {[ "error" := VStr message ]}
       ∧ Pipeline.respond (Pipeline.Failed kind message) !! "summary_text"
         = None
       ∧ Pipeline.respond (Pipeline.Failed kind message) !! "audio_base64"
         = None)
  ∧ (∀ env body p,
       ∃ p' t,
         Popup.fetchSummaryAndPlay env body p
           = (Return (), p', Fetch SERVER_URL body :: t)
         ∧ ((∃ summary buffer, succeeded summary buffer p')
            ∨ (∃ message, failed message p' ∧ audioBuffer p' = None)))
  ∧ (∀ env body p r,
       fetch_result env = Return r → usable r = false →
       ∃ p', Popup.fetchSummaryAndPlay env body p
             = (Return (), p', [Fetch SERVER_URL body])
             ∧ failed (rejection_message env server_message r) p'
             ∧ audioBuffer p' = None)
  ∧ (∀ env tabs p r c url,
       tabs !! 0%nat ≫= tab_url = Some (c :: url) →
       fetch_result env = Return r → usable r = false →
       ∃ p', PopupOnOpen.onTabs env tabs p
             = (Return (), p', [Fetch SERVER_URL (url_request (c :: url))])
             ∧ failed (rejection_message env PopupOnOpen.http_error r) p'
             ∧ audioBuffer p' = audioBuffer p)
  ∧ (∀ r kind message,
       body r = JsonObject (Pipeline.respond (Pipeline.Failed kind message)) →
       usable r = false).
Proof.
  split_and!.
  - intros col config request kind message Hf.
    apply run_failure in Hf as [stages Hrun]. exists stages. by split_and!.
  - intros env body p.
    destruct (fetchSummaryAndPlay_run env body p) as (p' & t & Hrun & _ & Ha).
    apply answered_all_or_nothing in Ha. eauto.
  - intros env body p r Hr Hu.
    destruct (fetchSummaryAndPlay_run env body p) as (p' & t & Hrun & _ & Ha).
    eapply answered_rejected in Ha as (-> & Hf & Hb); [|done..]. eauto.
  - intros env tabs p r c url Hurl Hr Hu.
    destruct (onTabs_run env tabs p c url Hurl) as (p' & t & Hrun & _ & Ha).
    eapply answered_rejected in Ha as (-> & Hf & Hb); [|done..]. eauto.
  - intros r kind message Hbody. apply usable_false.
    right; right; left. unfold field. by rewrite Hbody.
Qed.

Lemma failure_leaves_nothing_partial_witness :
  (∃ stages,
      Pipeline.run (Sample.services Sample.speech_down) Sample.template
        Sample.request
      = (stages, Pipeline.Failed Pipeline.SynthesisFailure
                   (js "TTS service unreachable"))
      ∧ Pipeline.respond (Pipeline.Failed Pipeline.SynthesisFailure
                            (js "TTS service unreachable"))
        = {[ "error" := VStr (js "TTS service unreachable") ]}
      ∧ Pipeline.respond (Pipeline.Failed Pipeline.SynthesisFailure
                            (js "TTS service unreachable")) !! "summary_text"
        = None
      ∧ Pipeline.respond (Pipeline.Failed Pipeline.SynthesisFailure
                            (js "TTS service unreachable")) !! "audio_base64"
        = None)
  ∧ (∃ p', Popup.fetchSummaryAndPlay (Sample.online [] Sample.synthesis_failed)
             base_request Sample.fresh_page
           = (Return (), p', [Fetch SERVER_URL base_request])
           ∧ failed (rejection_message (Sample.online [] Sample.synthesis_failed)
                       server_message Sample.synthesis_failed) p'
           ∧ audioBuffer p' = None)
  ∧ (∃ p', PopupOnOpen.onTabs (Sample.online [] Sample.synthesis_failed)
             [Sample.article] Sample.fresh_page
           = (Return (), p',
              [Fetch SERVER_URL (url_request (js "https://example.com/article"))])
           ∧ failed (rejection_message (Sample.online [] Sample.synthesis_failed)
                       PopupOnOpen.http_error Sample.synthesis_failed) p'
           ∧ audioBuffer p' = audioBuffer Sample.fresh_page)
  ∧ usable Sample.synthesis_failed = false.
Proof.
  destruct failure_leaves_nothing_partial as (H1 & _ & H3 & H4 & H5).
  split_and!.
  - apply (H1 (Sample.services Sample.speech_down) Sample.template
             Sample.request).
    right; right; right.
    exists {| Pipeline.raw_text := js "Article text.";
              Pipeline.source_url := js "https://example.com/article" |},
           {| Pipeline.system_prompt := js "You summarize articles.";
              Pipeline.user_prompt := js "Summarize: Article text. Thanks." |},
           {| Pipeline.summary_text := js "A summary.";
              Pipeline.provider_id := Pipeline.primary |}.
    split_and!; reflexivity.
  - apply (H3 (Sample.online [] Sample.synthesis_failed)); reflexivity.
  - apply (H4 (Sample.online [] Sample.synthesis_failed) [Sample.article]);
      reflexivity.
  - apply (H5 Sample.synthesis_failed Pipeline.SynthesisFailure
             (js "TTS service unreachable")). reflexivity.
Defined.

(** ** Sample runs *)

Example summarize_article :
  ∃ p', Popup.onSummarizeClick (Sample.online [Sample.article] Sample.complete)
          (js "current_tab") Sample.fresh_page
        = (Return (), p',
           [TabsQuery;
            Fetch SERVER_URL (url_request (js "https://example.com/article"));
            DecodeAudioData [82; 73; 70; 70];
            SourceStart (Decoded [82; 73; 70; 70])])
        ∧ statusDiv p' = js "Playing summary..."
        ∧ summaryContainer p' = js "A summary."
        ∧ replayDisabled p' = false.
Proof. eexists. split_and!; vm_compute; reflexivity. Qed.

Example summarize_when_synthesis_failed :
  ∃ p', Popup.onSummarizeClick
          (Sample.online [Sample.article] Sample.synthesis_failed)
          (js "current_tab") Sample.fresh_page
        = (Return (), p',
           [TabsQuery;
            Fetch SERVER_URL (url_request (js "https://example.com/article"))])
        ∧ statusDiv p' = js "Error: TTS service unreachable"
        ∧ summaryContainer p' = []
        ∧ replayDisabled p' = true.
Proof. eexists. split_and!; vm_compute; reflexivity. Qed.

Example toolbar_click_on_article :
  (Background.onClicked (Sample.online [] Sample.complete) Sample.article
     Sample.fresh_background).2
  = [BadgeText (js "..."); BadgeBackgroundColor (js "#FFA500");
     Fetch SERVER_URL (url_request (js "https://example.com/article"));
     DecodeAudioData [82; 73; 70; 70];
     SourceStart (Decoded [82; 73; 70; 70]);
     BadgeText []].
Proof. vm_compute. reflexivity. Qed.

Example toolbar_click_on_internal_page :
  Background.onClicked (Sample.online [] Sample.complete) Sample.internal_page
    Sample.fresh_background
  = (Return (), Sample.fresh_background,
     [Notification Background.title_cannot_summarize
        Background.message_invalid_url]).
Proof. vm_compute. reflexivity. Qed.

Example popup_opened_on_internal_page :
  fetch_bodies (PopupOnOpen.onOpen (Sample.offline [Sample.internal_page])
                  Sample.fresh_page).2
  = [url_request (js "chrome://extensions")].
Proof. vm_compute. reflexivity. Qed.

Example pipeline_when_synthesis_is_down :
  Pipeline.run (Sample.services Sample.speech_down) Sample.template
    Sample.request
  = ([Pipeline.Extracting; Pipeline.Prompting; Pipeline.Summarizing;
      Pipeline.Synthesizing],
     Pipeline.Failed Pipeline.SynthesisFailure (js "TTS service unreachable")).
Proof. reflexivity. Qed.

(** * Further properties of the handlers *)

(** ** The options page and the feeds the popup offers *)

Section options_more.
Import Options.

Lemma split_nonempty sep s : split sep s ≠ [].
Proof. destruct s as [|c s]; cbn; [done|]. by repeat case_match. Qed.

(** [s.split(sep).join(sep)] is [s]. *)
Lemma join_split sep (s : list Z) : join sep (split sep s) = s.
Proof.
  induction s as [|c s IH]; [done|]. cbn [split].
  pose proof (split_nonempty sep s) as Hne.
  destruct (Z.eqb_spec c sep) as [->|Hc].
  - destruct (split sep s) as [|piece pieces]; [done|].
    change (join sep ([] :: piece :: pieces))
      with (sep :: join sep (piece :: pieces)).
    by rewrite IH.
  - destruct (split sep s) as [|piece pieces]; [done|].
    rewrite <- IH. by destruct pieces.
Qed.

Lemma trimEnd_last s c :
  last (trimEnd s) = Some c → is_js_whitespace c = false.
Proof.
  induction s as [|c0 s IH]; cbn [trimEnd]; [done|].
  destruct (trimEnd s) as [|k kept].
  - destruct (is_js_whitespace c0) eqn:Hc0; [done|].
    cbn. by intros [= <-].
  - intros Hl. apply IH. by rewrite <- Hl.
Qed.

Lemma trim_head s c : head (trim s) = Some c → is_js_whitespace c = false.
Proof.
  pose proof (trimEnd_clean _ (trimStart_clean s)) as Hc.
  unfold trim. destruct (trimEnd (trimStart s)); [done|].
  cbn. by intros [= <-].
Qed.

(** X1: every entry [saveOptions] stores is a non-empty single line
    without whitespace at either end. *)
Theorem saved_feeds_are_clean (st : state) (feeds : list (list Z))
    (feed : list Z) :
  storage (saveOptions st) !! "rssFeedList" = Some feeds →
  feed ∈ feeds →
  feed ≠ []
  ∧ (newline ∉ feed)
  ∧ (∀ c, head feed = Some c → is_js_whitespace c = false)
  ∧ (∀ c, last feed = Some c → is_js_whitespace c = false).
Proof.
  unfold saveOptions. cbn [storage]. rewrite lookup_insert_eq.
  intros [= <-] Hin.
  pose proof (feedsArray_entries (rssFeedsTextArea st)) as He.
  rewrite Forall_forall in He. destruct (He feed Hin) as (Hn & Ht & Hne).
  split_and!; try done.
  - intros c. rewrite <- Ht. apply trim_head.
  - intros c. rewrite <- Ht. apply trimEnd_last.
Qed.

Lemma saved_feeds_are_clean_witness :
  js "http://a/feed" ≠ []
  ∧ (newline ∉ js "http://a/feed")
  ∧ (∀ c, head (js "http://a/feed") = Some c → is_js_whitespace c = false)
  ∧ (∀ c, last (js "http://a/feed") = Some c → is_js_whitespace c = false).
Proof.
  apply (saved_feeds_are_clean
           (Sample.options_page (js "  http://a/feed " ++ [10; 10; 9]))
           [js "http://a/feed"]).
  - reflexivity.
  - apply list_elem_of_here.
Defined.

(** X2: a text whose lines are all non-empty and free of surrounding
    whitespace comes back from storage exactly as it was typed. *)
Theorem restore_shows_text_as_typed (st : state) :
  Forall (λ line, trim line = line ∧ line ≠ [])
    (split newline (rssFeedsTextArea st)) →
  rssFeedsTextArea (restoreOptions false (saveOptions st))
  = rssFeedsTextArea st.
Proof.
  intros Hlines. unfold saveOptions, restoreOptions.
  cbn [storage rssFeedsTextArea]. rewrite lookup_insert_eq. cbn [default].
  assert (feedsArray (rssFeedsTextArea st)
          = split newline (rssFeedsTextArea st)) as ->.
  { unfold feedsArray.
    induction Hlines as [|line lines [Ht Hne] _ IH]; [done|].
    cbn [fmap list_fmap List.filter]. rewrite Ht, IH. by destruct line. }
  apply join_split.
Qed.

Lemma restore_shows_text_as_typed_witness :
  rssFeedsTextArea
    (restoreOptions false
       (saveOptions
          (Sample.options_page
             (js "http://a/feed" ++ [10] ++ js "https://b/rss"))))
  = js "http://a/feed" ++ [10] ++ js "https://b/rss".
Proof.
  apply (restore_shows_text_as_typed
           (Sample.options_page
              (js "http://a/feed" ++ [10] ++ js "https://b/rss"))).
  repeat constructor; done.
Defined.

(** X3: with nothing stored yet, the options page opens with an empty
    textarea, saving it stores the empty list, and the popup then offers
    no feed. *)
Theorem nothing_stored_nothing_offered (st : state) :
  storage st !! "rssFeedList" = None →
  rssFeedsTextArea (restoreOptions false st) = []
  ∧ storage (saveOptions (restoreOptions false st)) !! "rssFeedList" = Some []
  ∧ Popup.loadRssFeeds
      (default [] (storage (saveOptions (restoreOptions false st))
                     !! "rssFeedList")) = [].
Proof.
  intros Hnone. unfold restoreOptions, saveOptions.
  cbn [storage rssFeedsTextArea]. rewrite Hnone, lookup_insert_eq. done.
Qed.

Lemma nothing_stored_nothing_offered_witness :
  rssFeedsTextArea (restoreOptions false (Sample.options_page (js "stale")))
  = []
  ∧ storage
      (saveOptions (restoreOptions false (Sample.options_page (js "stale"))))
    !! "rssFeedList" = Some []
  ∧ Popup.loadRssFeeds
      (default []
         (storage
            (saveOptions
               (restoreOptions false (Sample.options_page (js "stale"))))
          !! "rssFeedList")) = [].
Proof.
  apply (nothing_stored_nothing_offered (Sample.options_page (js "stale"))).
  reflexivity.
Defined.



End options_more.

(** ** Decoding in the popups *)

Section decoding_more.
Import Base64.

(** X5: the loop that fills the [Uint8Array] yields as many bytes as the
    binary string has code units, each the code unit reduced modulo
    256. *)
Theorem uint8_fill (binaryString : list Z) :
  length (fill_bytes binaryString) = length binaryString
  ∧ Forall is_byte (fill_bytes binaryString)
  ∧ ∀ (i : nat) c,
      binaryString !! i = Some c →
      fill_bytes binaryString !! i = Some (c mod 256).
Proof.
  rewrite fill_bytes_spec. split_and!.
  - apply length_fmap.
  - apply Forall_fmap, Forall_forall. intros c _. unfold is_byte. cbn.
    apply Z.mod_pos_bound. lia.
  - intros i c Hi. by rewrite list_lookup_fmap, Hi.
Qed.

Lemma uint8_fill_witness :
  fill_bytes [72; 300] !! 1%nat = Some (300 mod 256).
Proof.
  apply (proj2 (proj2 (uint8_fill [72; 300])) 1%nat 300). reflexivity.
Defined.

(** X6: [decodeAudioData] of the popups: a string that is not valid
    base64 never reaches the audio decoder; the status line reports the
    failure and the error is thrown on.  A valid one is handed over as
    bytes, and a failure of the audio decoder is reported and thrown on
    alike. *)
Theorem decodeAudioData_outcome (env : environment) (base64String : list Z)
    (p : page) :
  match atob base64String with
  | None =>
      valid_base64 base64String = false
      ∧ decodeAudioData env base64String p
        = (Throw (invalid_character_error env),
           set_statusDiv (js "Error: Could not decode audio.") p, [])
  | Some binaryString =>
      valid_base64 base64String = true
      ∧ match decodeAudioData_result env (fill_bytes binaryString) with
        | Return buffer =>
            decodeAudioData env base64String p
            = (Return buffer, p, [DecodeAudioData (fill_bytes binaryString)])
        | Throw e =>
            decodeAudioData env base64String p
            = (Throw e, set_statusDiv (js "Error: Could not decode audio.") p,
               [DecodeAudioData (fill_bytes binaryString)])
        end
  end.
Proof.
  pose proof (atob_valid base64String) as Hv.
  unfold decodeAudioData, updateStatus. unfold_m.
  destruct (atob base64String) as [binaryString|].
  - split; [by apply Hv|].
    by destruct (decodeAudioData_result env (fill_bytes binaryString)).
  - split; [|done]. destruct (valid_base64 base64String); [|done].
    by destruct (proj2 Hv eq_refl).
Qed.

End decoding_more.

(** ** The page of the source-selector popup *)

Section popup_more.

Ltac display_leaf :=
  try match goal with
      | H : audioBuffer _ = Some _ |- _ => cbn in H; injection H as <-
      end;
  cbn [app]; split; [reflexivity|];
  split; [eexists; reflexivity|];
  split; [reflexivity|];
  split; [by repeat split|];
  unfold playback_reported; use_eqs;
  cbn [replayDisabled set_summarizeDisabled set_statusDiv set_audioBuffer
         set_replayDisabled set_display set_summaryContainer];
  intros Hreplay; try discriminate Hreplay;
  try match goal with
      | H : audioBuffer _ = None |- _ => by cbn in H
      end;
  (split; [reflexivity|]);
  first [ eexists; split; reflexivity
        | intros buffer Hin;
          repeat (apply elem_of_cons in Hin as [Hin|Hin]; [done|]);
          by apply elem_of_nil in Hin ].

Lemma fetchSummaryAndPlay_display env body p :
  wp (Popup.fetchSummaryAndPlay env body) p (λ r p' t',
    r = Return ()
    ∧ (∃ t, t' = Fetch SERVER_URL body :: t)
    ∧ summarizeDisabled p' = false
    ∧ consistent p'
    ∧ (replayDisabled p' = false → playback_reported env p' t')).
Proof.
  unfold Popup.fetchSummaryAndPlay, response_json, get_field, decodeAudioData,
    Popup.playAudio, Popup.showSummaryArea.
  wp_run; try apply wp_resetUI; wp_run; wp_done.
  all: display_leaf.
Qed.

Lemma playback_reported_cons env p e t :
  (∀ buffer, e ≠ SourceStart buffer) → t ≠ [] →
  playback_reported env p t → playback_reported env p (e :: t).
Proof.
  unfold playback_reported. intros He Ht.
  destruct (start_result env); intros [Hs Hp]; (split; [done|]).
  - destruct Hp as (buffer & Hb & Hl). exists buffer. split; [done|].
    by destruct t.
  - intros buffer [Heq|Hin]%elem_of_cons; [by eapply He|by eapply Hp].
Qed.

Lemma onSummarizeClick_display env selectedValue p :
  wp (Popup.onSummarizeClick env selectedValue) p (λ r p' t',
    r = Return ()
    ∧ consistent p'
    ∧ summarizeDisabled p'
      = (if fetch_bodies t' is [] then summarizeDisabled p else false)
    ∧ (replayDisabled p' = false → playback_reported env p' t')).
Proof.
  unfold Popup.onSummarizeClick. cbv zeta.
  apply wp_bind, wp_resetUI.
  destruct (bool_decide (selectedValue = js "current_tab")).
  - wp_run.
    all: try (eapply wp_mono; [apply fetchSummaryAndPlay_display|];
              intros r p' t' (-> & [t ->] & Hb & Hc & Hp); wp_run).
    all: wp_done; (split; [reflexivity|]); simpl_fetches;
      (split; [first [assumption | by repeat split]|]);
      (split; [first [assumption | reflexivity]|]).
    all: try (intros Hr; discriminate Hr).
    intros Hr. apply playback_reported_cons; [done|done|by apply Hp].
  - eapply wp_mono; [apply fetchSummaryAndPlay_display|].
    intros r p' t' (-> & [t ->] & Hb & Hc & Hp). cbn [app]. simpl_fetches.
    done.
Qed.

(** X7: after a click on Summarize the page is coherent whatever
    happened: the summary area is shown exactly when replay is enabled,
    replay is enabled exactly when decoded audio is held, and without it
    no summary text remains; the listener does not throw, and the button
    is enabled again once a request has been sent. *)
Theorem summarize_leaves_page_coherent (env : environment)
    (selectedValue : list Z) (p : page) :
  ∃ p' t,
    Popup.onSummarizeClick env selectedValue p = (Return (), p', t)
    ∧ consistent p'
    ∧ summarizeDisabled p'
      = (if fetch_bodies t is [] then summarizeDisabled p else false).
Proof.
  destruct (wp_elim _ _ _ (onSummarizeClick_display env selectedValue p))
    as (r & p' & t & Hrun & -> & Hc & Hb & _). eauto.
Qed.

(** X8: what [fetchSummaryAndPlay] reports once the audio is decoded:
    when playback starts, the status says so and the buffer played is
    the one kept for replay; when it cannot start, the status says so
    while the summary stays on display.  In either case, and after any
    failure, the Summarize button is enabled again. *)
Theorem playback_outcome_is_reported (env : environment)
    (body : gmap string jsval) (p : page) :
  ∃ p' t,
    Popup.fetchSummaryAndPlay env body p = (Return (), p', t)
    ∧ summarizeDisabled p' = false
    ∧ (replayDisabled p' = false →
       summaryShown p' = true ∧ playback_reported env p' t).
Proof.
  destruct (wp_elim _ _ _ (fetchSummaryAndPlay_display env body p))
    as (r & p' & t & Hrun & -> & _ & Hb & (Hs & _) & Hp).
  exists p', t. split_and!; try done.
  intros Hr. split; [|by apply Hp]. by rewrite Hs, Hr.
Qed.



End popup_more.

(** ** The toolbar listener of the background script *)

Section background_more.
Import Background.

Ltac simpl_events :=
  cbn [started notifications badge_texts omap list_omap app].

Ltac stop_leaf :=
  repeat match goal with
    | H : currentAudioSource (_ _) = _ |- _ => cbn in H
    end;
  use_eqs;
  split;
  [ first [ by eauto
          | let Hin := fresh in
            intros Hin;
            repeat (apply elem_of_cons in Hin as [Hin|Hin]; [done|]);
            by apply elem_of_nil in Hin ]
  | first [ by intros [? ?] | intros _; repeat constructor ] ].

Lemma background_playAudio_spec env bytes s :
  wp (playAudio env bytes) s (λ r s' t',
    r = Return ()
    ∧ (SourceStop ∈ t' ↔ is_Some (currentAudioSource s))
    ∧ badge_texts t' = []
    ∧ toolbar_playback env bytes s' t').
Proof.
  unfold playAudio.
  wp_run; wp_done.
  all: split; [reflexivity|].
  all: unfold toolbar_playback; use_eqs.
  all: simpl_events.
  all: split; [stop_leaf|].
  all: split_and!; try reflexivity.
  all: cbn; by destruct (audioContext s).
Qed.

Lemma length_positive_truthy v :
  truthy v = false → length_positive v = false.
Proof.
  destruct v as [| |b|n|a|]; cbn; try done.
  destruct a; [done|]. by rewrite bool_decide_eq_false_2.
Qed.

Lemma toolbar_playback_framed env bytes s' before t after :
  started before = [] → notifications before = [] →
  started after = [] → notifications after = [] →
  toolbar_playback env bytes s' t →
  toolbar_playback env bytes s' (before ++ t ++ after).
Proof.
  unfold toolbar_playback, started, notifications.
  intros Hs Hn Hs' Hn'. by rewrite !omap_app, Hs, Hn, Hs', Hn', !app_nil_r.
Qed.

Ltac quiet_leaf :=
  unfold toolbar_answered, toolbar_server_message, field; use_eqs;
  lazy beta iota zeta; use_eqs; cbn [andb negb truthy]; use_eqs;
  simpl_events.

Lemma background_onClicked_outcome env t s :
  wp (onClicked env t) s (λ r s' t',
    r = Return ()
    ∧ if url_missing (tab_url t) || not_http (url_text (tab_url t)) then
        s' = s ∧ started t' = [] ∧ badge_texts t' = []
        ∧ notifications t' = [(title_cannot_summarize, message_invalid_url)]
      else
        badge_texts t' = [js "..."; []]
        ∧ last t' = Some (BadgeText [])
        ∧ toolbar_answered env s s' t').
Proof.
  unfold onClicked, base64ToArrayBuffer, response_json, get_field.
  wp_run.
  all: try (eapply wp_mono; [apply background_playAudio_spec|];
            intros r s' t' (-> & _ & Hb & Hp); wp_run).
  all: wp_done; (split; [reflexivity|]); use_eqs; cbn [orb]; try done.
  all: quiet_leaf.
  all: try by split_and!.
  - split; [unfold badge_texts in *; by rewrite omap_app, Hb|].
    split; [by rewrite !app_comm_cons, last_snoc|].
    by apply (toolbar_playback_framed env _ s' [_; _; _] t' [_]).
  - split; [done|]. split; [done|].
    by rewrite length_positive_truthy.
Qed.

Lemma onClicked_answered env t s :
  url_missing (tab_url t) || not_http (url_text (tab_url t)) = false →
  ∃ s' tr,
    onClicked env t s = (Return (), s', tr) ∧ toolbar_answered env s s' tr.
Proof.
  intros Hurl.
  destruct (wp_elim _ _ _ (background_onClicked_outcome env t s))
    as (r & s' & tr & Hrun & -> & Hpost).
  rewrite Hurl in Hpost. destruct Hpost as (_ & _ & Ha). eauto.
Qed.


(** X11: the badge set while a request is in progress never stays: when
    the tab is rejected no badge is set at all, and otherwise the badge
    is set to [...] once and the last thing the listener does, on success
    and on every failure, is to clear it. *)
Theorem toolbar_badge_is_cleared (env : environment) (t : tab) (s : state) :
  ∃ s' tr,
    onClicked env t s = (Return (), s', tr)
    ∧ if url_missing (tab_url t) || not_http (url_text (tab_url t))
      then badge_texts tr = []
      else badge_texts tr = [js "..."; []] ∧ last tr = Some (BadgeText []).
Proof.
  destruct (wp_elim _ _ _ (background_onClicked_outcome env t s))
    as (r & s' & tr & Hrun & -> & Hpost).
  exists s', tr. split; [done|].
  destruct (url_missing (tab_url t) || not_http (url_text (tab_url t))).
  - by destruct Hpost as (_ & _ & Hb & _).
  - by destruct Hpost as (Hb & Hl & _).
Qed.

(** X12: audio that is not valid base64 is reported twice by the toolbar
    listener: [base64ToArrayBuffer] notifies about the malformed data and
    the error it raises is notified again by the listener's own handler;
    nothing is played and the script's globals are untouched. *)
Theorem invalid_audio_is_reported_twice (env : environment) (t : tab)
    (s : state) (r : response) (audio : list Z) :
  url_missing (tab_url t) || not_http (url_text (tab_url t)) = false →
  fetch_result env = Return r → ok r = true →
  truthy (field r "error") = false →
  field r "audio_base64" = VStr audio → audio ≠ [] →
  Base64.valid_base64 audio = false →
  ∃ tr,
    onClicked env t s = (Return (), s, tr)
    ∧ started tr = []
    ∧ notifications tr
      = [(title_play_error, message_bad_audio);
         processing_error (js "Invalid Base64 audio data received.")].
Proof.
  intros Hurl Hf Hok He Ha Hne Hv.
  destruct (onClicked_answered env t s Hurl) as (s' & tr & Hrun & Hans).
  unfold toolbar_answered in Hans. rewrite Hf, Hok, He, Ha in Hans.
  destruct (body r) eqn:Hb; try (unfold field in Ha; by rewrite Hb in Ha).
  cbn [length_positive to_js_string] in Hans.
  assert (Base64.atob audio = None) as Hatob.
  { destruct (Base64.atob audio) eqn:Hd; [|done].
    pose proof (proj1 (atob_valid audio)) as Hv'. rewrite Hd, Hv in Hv'.
    by specialize (Hv' (mk_is_Some _ _ eq_refl)). }
  rewrite Hatob in Hans.
  destruct audio as [|c audio]; [done|]. cbn in Hans.
  destruct Hans as (-> & Hs & Hn). eauto.
Qed.

Lemma invalid_audio_is_reported_twice_witness :
  ∃ tr,
    onClicked (Sample.online [] Sample.garbled) Sample.article
      Sample.fresh_background
    = (Return (), Sample.fresh_background, tr)
    ∧ started tr = []
    ∧ notifications tr
      = [(title_play_error, message_bad_audio);
         processing_error (js "Invalid Base64 audio data received.")].
Proof.
  apply (invalid_audio_is_reported_twice (Sample.online [] Sample.garbled)
           Sample.article Sample.fresh_background Sample.garbled
           (js "a*b=")); try reflexivity.
  discriminate.
Defined.



(** X14: a response whose status is not ok is reported by the toolbar
    listener in one notification: with the server's own error text when
    the body is an object with a truthy [error], with the status code
    when [error] is missing, and with status code and status text when
    the body cannot be read as an object. *)
Theorem server_error_is_reported (env : environment) (t : tab)
    (s : state) (r : response) :
  url_missing (tab_url t) || not_http (url_text (tab_url t)) = false →
  fetch_result env = Return r → ok r = false →
  ∃ tr,
    onClicked env t s = (Return (), s, tr)
    ∧ started tr = []
    ∧ notifications tr = [processing_error (toolbar_server_message r)].
Proof.
  intros Hurl Hf Hok.
  destruct (onClicked_answered env t s Hurl) as (s' & tr & Hrun & Hans).
  unfold toolbar_answered in Hans. rewrite Hf, Hok in Hans.
  destruct Hans as (-> & Hs & Hn). eauto.
Qed.

Lemma server_error_is_reported_witness :
  ∃ tr,
    onClicked (Sample.online [] Sample.synthesis_failed) Sample.article
      Sample.fresh_background
    = (Return (), Sample.fresh_background, tr)
    ∧ started tr = []
    ∧ notifications tr
      = [processing_error (js "TTS service unreachable")].
Proof.
  apply (server_error_is_reported (Sample.online [] Sample.synthesis_failed)
           Sample.article Sample.fresh_background Sample.synthesis_failed);
    reflexivity.
Defined.


(** X16: the toolbar listener reads nothing of the server's answer but
    [error] and [audio_base64]: changing any other field, [summary_text]
    included, changes neither what it does nor the state it leaves. *)
Theorem toolbar_reads_error_and_audio_only (name : string) (v : jsval)
    (env : environment) (t : tab) (s : state) :
  name ≠ "error" → name ≠ "audio_base64" →
  onClicked (with_field name v env) t s = onClicked env t s.
Proof.
  intros He Ha. unfold onClicked.
  destruct (url_missing (tab_url t) || not_http (url_text (tab_url t)));
    [done|].
  unfold base64ToArrayBuffer, playAudio, response_json, get_field.
  unfold_m. cbn [with_field fetch_result decodeAudioData_result
    existing_context_state fresh_context_state start_result stop_result
    invalid_character_error type_error].
  destruct (fetch_result env) as [[is_ok code text [m| |fields]]|e];
    cbn [ok status statusText body negb];
    try reflexivity.
  by rewrite !lookup_insert_ne.
Qed.

Lemma toolbar_reads_error_and_audio_only_witness :
  onClicked
    (with_field "summary_text" (VStr (js "Another summary."))
       (Sample.online [] Sample.complete))
    Sample.article Sample.fresh_background
  = onClicked (Sample.online [] Sample.complete) Sample.article
      Sample.fresh_background.
Proof.
  apply (toolbar_reads_error_and_audio_only "summary_text"); discriminate.
Defined.

End background_more.

(** ** Where requests go *)

Section targets.

Lemma fetch_targets_bodies t :
  fetch_targets t = [] ↔ fetch_bodies t = [].
Proof.
  unfold fetch_targets, fetch_bodies.
  induction t as [|e t IH]; [done|]. by destruct e.
Qed.

Lemma fetch_targets_after_request t :
  after_request t → fetch_targets t = [].
Proof. intros [Hf _]. by apply fetch_targets_bodies. Qed.

Ltac simpl_targets :=
  repeat match goal with
    | |- context [fetch_targets (Fetch ?u ?b :: ?t)] =>
        change (fetch_targets (Fetch u b :: t)) with (u :: fetch_targets t)
    | |- context [fetch_targets (?e :: ?t)] =>
        change (fetch_targets (e :: t)) with (fetch_targets t)
    end.

(** X17: the extension talks to one place only: every request of every
    handler run goes to [SERVER_URL], the summarizer on the local
    machine. *)
Theorem requests_go_to_the_local_server (t : list event) (url : list Z) :
  handler_run t → url ∈ fetch_targets t → url = SERVER_URL.
Proof.
  intros Hrun. cut (fetch_targets t = [] ∨ fetch_targets t = [SERVER_URL]).
  { intros [->| ->]; [by intros ?%elem_of_nil|].
    by intros ->%list_elem_of_singleton. }
  destruct Hrun as [t0|env t0 s|env p|env p|env selectedValue p|env p].
  - by left.
  - destruct (wp_elim _ _ _ (background_onClicked_spec env t0 s))
      as (r & s' & t' & -> & -> & Hpost). cbn [snd].
    destruct (url_missing (tab_url t0) || not_http (url_text (tab_url t0))).
    + destruct Hpost as [-> ->]. by left.
    + destruct Hpost as (tr & -> & Htr & _). right. simpl_targets.
      by rewrite fetch_targets_after_request.
  - rewrite onOpen_run. destruct (tabs_query env) as [tabs|e]; [|by left].
    destruct (wp_elim _ _ _ (onTabs_spec env tabs p))
      as (r & p' & t' & -> & -> & Hpost). cbn [snd].
    destruct (tabs !! 0%nat ≫= tab_url) as [[|c u]|].
    + destruct Hpost as [-> ->]. by left.
    + destruct Hpost as (tr & -> & Htr & _). right. simpl_targets.
      by rewrite fetch_targets_after_request.
    + destruct Hpost as [-> ->]. by left.
  - left. apply fetch_targets_bodies, replay_fetches.
  - destruct (wp_elim _ _ _ (onSummarizeClick_spec env selectedValue p))
      as (r & p' & t' & -> & -> & Hpost). cbn [snd].
    destruct (bool_decide (selectedValue = js "current_tab")).
    + destruct (tabs_query env) as [tabs|e].
      * destruct (no_summarizable_tab tabs).
        -- destruct Hpost as [-> _]. by left.
        -- destruct Hpost as (tr & -> & Htr & _). right. simpl_targets.
           by rewrite fetch_targets_after_request.
      * destruct Hpost as [-> _]. by left.
    + destruct Hpost as (tr & -> & Htr & _). right. simpl_targets.
      by rewrite fetch_targets_after_request.
  - left. apply fetch_targets_bodies, replay_fetches.
Qed.

Lemma requests_go_to_the_local_server_witness :
  js "http://127.0.0.1:5000/summarize" = SERVER_URL.
Proof.
  apply (requests_go_to_the_local_server
           (Popup.onSummarizeClick (Sample.offline []) Sample.ftp_feed
              Sample.fresh_page).2).
  - apply run_summarize.
  - vm_compute. apply list_elem_of_here.
Defined.

(** X18: the popup that summarizes on opening checks only that the
    current tab has an address: it requests a summary for any non-empty
    address, whatever its scheme, and sends nothing when the address is
    missing or empty. *)
Theorem popup_open_requests_any_address (env : environment) (t : tab)
    (tabs : list tab) (p : page) :
  tabs_query env = Return (t :: tabs) →
  fetch_bodies (PopupOnOpen.onOpen env p).2
  = if url_missing (tab_url t) then []
    else [url_request (url_text (tab_url t))].
Proof.
  intros Hq. rewrite popup_open_fetches, Hq. cbn.
  by destruct (tab_url t) as [[|c url]|].
Qed.

Lemma popup_open_requests_any_address_witness :
  not_http (js "chrome://extensions") = true
  ∧ fetch_bodies (PopupOnOpen.onOpen (Sample.offline [Sample.internal_page])
                    Sample.fresh_page).2
    = [url_request (js "chrome://extensions")].
Proof.
  split; [reflexivity|].
  apply (popup_open_requests_any_address
           (Sample.offline [Sample.internal_page]) Sample.internal_page []).
  reflexivity.
Defined.

End targets.
